(** * ChatGPTtoMD: a shallow embedding of [main.py]

    The script reads [conversations.json] (already decoded by [json.load]),
    linearises each conversation's node mapping along its first-child line,
    renders the visited messages as Markdown blocks and writes one file per
    conversation.

    The embedding keeps Python's dynamic typing: every value that comes out of
    [json.load] is a [json], dictionaries are association lists in insertion
    order, and every operation that can raise in Python returns an [outcome].
    The [while] loop of [get_conversation_messages] has no cycle guard, so it
    is modelled with fuel and a third outcome, [OutOfFuel].

    Strings are [string]s whose characters stand for code points below 128;
    case mapping and whitespace follow Python on that range. *)

From Stdlib Require Import List String Ascii Bool Arith Lia.
From Stdlib Require Import QArith.
From Stdlib Require Import Permutation Relations.
From Stdlib Require Import DecimalString.
Import ListNotations.

Local Close Scope Q_scope.
Local Open Scope list_scope.
Local Open Scope string_scope.
Local Open Scope nat_scope.

(** ** Python values and exceptions *)

Inductive exn : Type :=
| KeyError
| TypeError
| AttributeError
| ValueError
| IndexError
| OverflowError
| OSError.

(** [Ret v]: the call returns [v]; [Raise e]: it raises [e]; [OutOfFuel]:
    the loop was still running when the fuel ran out. *)
Inductive outcome (A : Type) : Type :=
| Ret (a : A)
| Raise (e : exn)
| OutOfFuel.

Arguments Ret {A} a.
Arguments Raise {A} e.
Arguments OutOfFuel {A}.

Definition bind {A B : Type} (m : outcome A) (k : A -> outcome B) : outcome B :=
  match m with
  | Ret a => k a
  | Raise e => Raise e
  | OutOfFuel => OutOfFuel
  end.

Declare Scope py_scope.
Delimit Scope py_scope with py.
Notation "x <- m ;; k" := (bind m (fun x => k))
  (at level 61, m at next level, right associativity) : py_scope.
Local Open Scope py_scope.

(** What [json.load] produces.  [JNum q] is an [int] or a finite [float],
    given by its exact value; a [JDict] lists its items in insertion order
    and [json.load] never repeats a key. *)
#[warnings="-register-all"]
Inductive json : Type :=
| JNull
| JBool (b : bool)
| JNum (q : Q)
| JStr (s : string)
| JList (l : list json)
| JDict (d : list (string * json)).

(** Library behaviour the script relies on and that lies outside the
    embedding: [str()] of an object that is not a [str], [sorted] on keys
    that are not all numbers, [datetime.fromtimestamp(t).strftime(...)] in
    the local time zone, and the file system. *)
Class PyLib : Type := {
  str_of_object : json -> string;
  sorted_other : list (json * json) -> outcome (list json);
  strftime_local : Q -> outcome string;
  fs : Type;
  write_text : fs -> string -> string -> fs * option string
}.

(** ** Characters and strings *)

Definition nl : string := String "010"%char EmptyString.
Definition dquote : ascii := "034"%char.
Definition backslash : ascii := "092"%char.

Definition is_upper (c : ascii) : bool :=
  let n := nat_of_ascii c in (65 <=? n) && (n <=? 90).

Definition is_lower (c : ascii) : bool :=
  let n := nat_of_ascii c in (97 <=? n) && (n <=? 122).

Definition to_lower (c : ascii) : ascii :=
  if is_upper c then ascii_of_nat (nat_of_ascii c + 32) else c.

Definition to_upper (c : ascii) : ascii :=
  if is_lower c then ascii_of_nat (nat_of_ascii c - 32) else c.

(** [str.isspace] on one character: TAB..CR, FS..US and SPACE. *)
Definition is_space (c : ascii) : bool :=
  let n := nat_of_ascii c in
  ((9 <=? n) && (n <=? 13)) || ((28 <=? n) && (n <=? 32)).

Fixpoint string_map (f : ascii -> ascii) (s : string) : string :=
  match s with
  | EmptyString => EmptyString
  | String c s' => String (f c) (string_map f s')
  end.

Fixpoint string_filter (f : ascii -> bool) (s : string) : string :=
  match s with
  | EmptyString => EmptyString
  | String c s' => if f c then String c (string_filter f s') else string_filter f s'
  end.

Fixpoint string_take (n : nat) (s : string) : string :=
  match n, s with
  | S n', String c s' => String c (string_take n' s')
  | _, _ => EmptyString
  end.

Definition is_empty (s : string) : bool :=
  match s with EmptyString => true | _ => false end.

(** [str.lower] *)
Definition py_lower (s : string) : string := string_map to_lower s.

(** [str.title]: a cased character that follows an uncased one (or starts
    the string) is upper-cased, a cased character that follows a cased one is
    lower-cased. *)
Fixpoint title_from (previous_is_cased : bool) (s : string) : string :=
  match s with
  | EmptyString => EmptyString
  | String c s' =>
      if is_lower c then
        String (if previous_is_cased then c else to_upper c) (title_from true s')
      else if is_upper c then
        String (if previous_is_cased then to_lower c else c) (title_from true s')
      else String c (title_from false s')
  end.

Definition py_title (s : string) : string := title_from false s.

Fixpoint py_lstrip (s : string) : string :=
  match s with
  | EmptyString => EmptyString
  | String c s' => if is_space c then py_lstrip s' else s
  end.

Fixpoint py_rstrip (s : string) : string :=
  match s with
  | EmptyString => EmptyString
  | String c s' =>
      let r := py_rstrip s' in
      if is_empty r && is_space c then EmptyString else String c r
  end.

(** [str.strip] *)
Definition py_strip (s : string) : string := py_rstrip (py_lstrip s).

Fixpoint mem_ascii (c : ascii) (cls : list ascii) : bool :=
  match cls with
  | [] => false
  | x :: cls' => Ascii.eqb c x || mem_ascii c cls'
  end.

(** [re.sub(pattern, repl, s)] for a pattern that is one character class:
    scanning left to right, a character of the class is replaced by [repl],
    any other character is copied. *)
Fixpoint re_sub_class (cls : list ascii) (repl : string) (s : string) : string :=
  match s with
  | EmptyString => EmptyString
  | String c s' =>
      if mem_ascii c cls then repl ++ re_sub_class cls repl s'
      else String c (re_sub_class cls repl s')
  end.

(** [str.replace(old, new)] for a non-empty [old]: leftmost, non-overlapping
    occurrences.  [skip] counts the characters of the occurrence just
    replaced that are still to be passed over. *)
Fixpoint replace_from (old new : string) (skip : nat) (s : string) : string :=
  match s with
  | EmptyString => EmptyString
  | String c s' =>
      match skip with
      | S k => replace_from old new k s'
      | O =>
          if prefix old s then new ++ replace_from old new (String.length old - 1) s'
          else String c (replace_from old new 0 s')
      end
  end.

Definition py_replace (old new s : string) : string := replace_from old new 0 s.

(** [needle in haystack] for two strings *)
Fixpoint is_substring (needle haystack : string) : bool :=
  prefix needle haystack ||
  match haystack with
  | EmptyString => false
  | String _ h' => is_substring needle h'
  end.

Fixpoint chars_of (s : string) : list string :=
  match s with
  | EmptyString => []
  | String c s' => String c EmptyString :: chars_of s'
  end.

(** ** Operations on Python objects *)

(** [bool(v)] *)
Definition truthy (v : json) : bool :=
  match v with
  | JNull => false
  | JBool b => b
  | JNum q => negb (Qeq_bool q 0)
  | JStr s => negb (is_empty s)
  | JList l => match l with [] => false | _ => true end
  | JDict d => match d with [] => false | _ => true end
  end.

Fixpoint lookup (k : string) (d : list (string * json)) : option json :=
  match d with
  | [] => None
  | (k', v) :: d' => if String.eqb k k' then Some v else lookup k d'
  end.

(** [v.get(k, default)] *)
Definition py_get (v : json) (k : string) (default : json) : outcome json :=
  match v with
  | JDict d => Ret (match lookup k d with Some x => x | None => default end)
  | _ => Raise AttributeError
  end.

(** [v[k]] for a string key [k] *)
Definition py_getitem (v : json) (k : string) : outcome json :=
  match v with
  | JDict d => match lookup k d with Some x => Ret x | None => Raise KeyError end
  | _ => Raise TypeError
  end.

(** [v == s] for a string literal [s] *)
Definition is_str (s : string) (v : json) : bool :=
  match v with
  | JStr s' => String.eqb s' s
  | _ => false
  end.

(** [v is None] *)
Definition is_none (v : json) : bool :=
  match v with JNull => true | _ => false end.

(** [k in v] for a string literal [k] *)
Definition py_contains (k : string) (v : json) : outcome bool :=
  match v with
  | JDict d => Ret (match lookup k d with Some _ => true | None => false end)
  | JList l => Ret (existsb (is_str k) l)
  | JStr s => Ret (is_substring k s)
  | _ => Raise TypeError
  end.

(** [v.items()] *)
Definition py_items (v : json) : outcome (list (string * json)) :=
  match v with
  | JDict d => Ret d
  | _ => Raise AttributeError
  end.

(** The elements a [for] loop or a generator draws from [v]. *)
Definition py_iter (v : json) : outcome (list json) :=
  match v with
  | JList l => Ret l
  | JStr s => Ret (map JStr (chars_of s))
  | JDict d => Ret (map (fun kv => JStr (fst kv)) d)
  | _ => Raise TypeError
  end.

(** [v[0]] *)
Definition py_first (v : json) : outcome json :=
  match v with
  | JList (x :: _) => Ret x
  | JList [] => Raise IndexError
  | JStr (String c _) => Ret (JStr (String c EmptyString))
  | JStr EmptyString => Raise IndexError
  | JDict _ => Raise KeyError
  | _ => Raise TypeError
  end.

(** [k in mapping] for a dictionary with string keys: an unhashable [k]
    raises, a hashable [k] that is not a string is never a key. *)
Definition key_in (k : json) (mapping : list (string * json)) : outcome bool :=
  match k with
  | JStr s => Ret (match lookup s mapping with Some _ => true | None => false end)
  | JList _ | JDict _ => Raise TypeError
  | _ => Ret false
  end.

(** [mapping[k]], after [k in mapping] held *)
Definition node_at (k : json) (mapping : list (string * json)) : outcome json :=
  match k with
  | JStr s => match lookup s mapping with Some n => Ret n | None => Raise KeyError end
  | JList _ | JDict _ => Raise TypeError
  | _ => Raise KeyError
  end.

(** [v.title()] as a method call on an arbitrary object *)
Definition title_method (v : json) : outcome string :=
  match v with JStr s => Ret (py_title s) | _ => Raise AttributeError end.

(** [str.join]'s check that every item is a [str] *)
Fixpoint py_join (items : list json) : outcome string :=
  match items with
  | [] => Ret EmptyString
  | JStr s :: rest => r <- py_join rest ;; Ret (s ++ r)
  | _ :: _ => Raise TypeError
  end.

(** The value of [{v}] inside an f-string *)
Definition py_format `{PyLib} (v : json) : string :=
  match v with JStr s => s | _ => str_of_object v end.

(** A number as Python compares it: [bool] is a subtype of [int]. *)
Definition as_number (v : json) : option Q :=
  match v with
  | JNum q => Some q
  | JBool true => Some 1%Q
  | JBool false => Some 0%Q
  | _ => None
  end.

(** ** [sorted(..., key=...)]

    [sorted] is stable.  On numeric keys it is modelled by a stable insertion
    sort that, like Python, only ever asks whether one key is below
    another. *)

Fixpoint insert_by_key (x : Q * json) (l : list (Q * json)) : list (Q * json) :=
  match l with
  | [] => [x]
  | y :: l' =>
      if Qle_bool (fst x) (fst y) then x :: y :: l'
      else y :: insert_by_key x l'
  end.

Definition sort_by_key (l : list (Q * json)) : list (Q * json) :=
  fold_right insert_by_key [] l.

Fixpoint numeric_keys (l : list (json * json)) : option (list (Q * json)) :=
  match l with
  | [] => Some []
  | (k, x) :: l' =>
      match as_number k, numeric_keys l' with
      | Some q, Some r => Some ((q, x) :: r)
      | _, _ => None
      end
  end.

(** [keyed] pairs every item with the key computed for it. *)
Definition py_sorted `{PyLib} (keyed : list (json * json)) : outcome (list json) :=
  match numeric_keys keyed with
  | Some l => Ret (map snd (sort_by_key l))
  | None =>
      match keyed with
      | [(_, x)] => Ret [x]
      | _ => sorted_other keyed
      end
  end.

(** ** [sanitize_filename] (lines 11-23) *)

Definition illegal_chars : list ascii :=
  [backslash; "/"; "*"; "?"; ":"; dquote; "<"; ">"; "|"]%char.

Definition sanitize_filename (name : string) : string :=
  let sanitized := re_sub_class illegal_chars EmptyString name in
  let sanitized := py_replace " " "_" sanitized in
  string_take 100 sanitized.

(** ** [format_message_part] (lines 25-37)

    The result is whatever Python returns, which for a [text] part is the
    [text] field as it stands, a string or not. *)

Definition fence : string := "```".

Definition format_message_part `{PyLib} (part : json) : json :=
  match part with
  | JStr _ => part
  | JDict d =>
      let field k default :=
        match lookup k d with Some x => x | None => default end in
      if is_str "code" (field "content_type" JNull) then
        let language := field "language" (JStr EmptyString) in
        let code := field "text" (JStr EmptyString) in
        JStr (nl ++ fence ++ "python" ++ nl ++ py_format code ++ nl ++ fence ++ nl)
      else if is_str "text" (field "content_type" JNull) then
        field "text" (JStr EmptyString)
      else JStr EmptyString
  | _ => JStr EmptyString
  end.

(** ** [get_conversation_messages] (lines 40-96) *)

(** Line 87: the block of one message. *)
Definition block (author_role full_text : string) : string :=
  "## " ++ author_role ++ nl ++ nl ++ full_text ++ nl ++ nl ++ "---" ++ nl ++ nl.

(** Lines 74-87: what one visited node appends to [messages]: nothing, or
    one block. *)
Definition node_blocks `{PyLib} (node : json) : outcome (list string) :=
  message_data <- py_get node "message" JNull ;;
  if negb (truthy message_data) then Ret [] else
  content <- py_get message_data "content" JNull ;;
  if negb (truthy content) then Ret [] else
  author <- py_getitem message_data "author" ;;
  role <- py_getitem author "role" ;;
  if is_str "system" role then Ret [] else
  author_role <- title_method role ;;
  content_parts <- py_get content "parts" (JList []) ;;
  parts <- py_iter content_parts ;;
  full_text <- py_join (map format_message_part parts) ;;
  if is_empty (py_strip full_text) then Ret []
  else Ret [block author_role full_text].

(** Lines 90-94: where the loop goes after a node: [Some c] for
    [children[0]], [None] for [break]. *)
Definition next_node (node : json) : outcome (option json) :=
  children <- py_get node "children" (JList []) ;;
  if truthy children then c <- py_first children ;; Ret (Some c)
  else Ret None.

(** Lines 71-96: the [while] loop, with its two variables. *)
Fixpoint walk `{PyLib} (fuel : nat) (mapping : list (string * json))
    (current_node_id : json) (messages : list string) : outcome (list string) :=
  match fuel with
  | O => OutOfFuel
  | S fuel' =>
      present <- key_in current_node_id mapping ;;
      if negb present then Ret messages else
      node <- node_at current_node_id mapping ;;
      new <- node_blocks node ;;
      next <- next_node node ;;
      match next with
      | Some c => walk fuel' mapping c (messages ++ new)%list
      | None => Ret (messages ++ new)%list
      end
  end.

(** Lines 52-56: the first item whose node has no parent. *)
Fixpoint find_parentless (items : list (string * json)) : outcome (option string) :=
  match items with
  | [] => Ret None
  | (node_id, node) :: rest =>
      parent <- py_get node "parent" JNull ;;
      if is_none parent then Ret (Some node_id) else find_parentless rest
  end.

(** Line 62: the generator's filter. *)
Fixpoint message_nodes (values : list json) : outcome (list json) :=
  match values with
  | [] => Ret []
  | node :: rest =>
      m <- py_get node "message" JNull ;;
      r <- message_nodes rest ;;
      Ret (if truthy m then node :: r else r)
  end.

(** Line 63: the sort key of one node. *)
Definition create_time_of (x : json) : outcome json :=
  m <- py_getitem x "message" ;;
  py_getitem m "create_time".

Fixpoint with_keys (nodes : list json) : outcome (list (json * json)) :=
  match nodes with
  | [] => Ret []
  | x :: rest =>
      k <- create_time_of x ;;
      r <- with_keys rest ;;
      Ret ((k, x) :: r)
  end.

(** Lines 59-68: [Ret None] is the early [return []]. *)
Definition fallback_root `{PyLib} (items : list (string * json)) : outcome (option json) :=
  candidates <- message_nodes (map snd items) ;;
  keyed <- with_keys candidates ;;
  sorted_nodes <- py_sorted keyed ;;
  match sorted_nodes with
  | first :: _ => id <- py_getitem first "id" ;; Ret (Some id)
  | [] => Ret None
  end.

(** Lines 52-68 *)
Definition select_root `{PyLib} (items : list (string * json)) : outcome (option json) :=
  found <- find_parentless items ;;
  match found with
  | Some node_id => Ret (Some (JStr node_id))
  | None => fallback_root items
  end.

Definition get_conversation_messages `{PyLib} (fuel : nat) (convo_data : json)
    : outcome (list string) :=
  if negb (truthy convo_data) then Ret [] else
  has_mapping <- py_contains "mapping" convo_data ;;
  if negb has_mapping then Ret [] else
  mapping <- py_getitem convo_data "mapping" ;;
  items <- py_items mapping ;;
  root <- select_root items ;;
  match root with
  | Some root_node_id => walk fuel items root_node_id []
  | None => Ret []
  end.

(** ** The export loop of [main] (lines 127-157) *)

Definition OUTPUT_DIR : string := "chatgpt_exports".

Fixpoint ends_with (c : ascii) (s : string) : bool :=
  match s with
  | EmptyString => false
  | String x EmptyString => Ascii.eqb x c
  | String _ s' => ends_with c s'
  end.

(** [os.path.join(a, b)] with [/] as the separator *)
Definition os_path_join (a b : string) : string :=
  if prefix "/" b then b
  else if is_empty a || ends_with "/" a then a ++ b
  else a ++ "/" ++ b.

(** [x or y] *)
Definition py_or (x y : json) : json := if truthy x then x else y.

(** [datetime.fromtimestamp(create_time).strftime('%Y-%m-%d_%H-%M-%S')] *)
Definition timestamp_string `{PyLib} (create_time : json) : outcome string :=
  match as_number create_time with
  | Some t => strftime_local t
  | None => Raise TypeError
  end.

(** Lines 133-138 *)
Definition output_filename `{PyLib} (title create_time : json) : outcome string :=
  let fallback :=
    date_str <- timestamp_string create_time ;;
    Ret ("conversation_" ++ date_str ++ ".md") in
  if truthy title then
    match title with
    | JStr t =>
        let lowered := py_lower t in
        if negb (String.eqb lowered "new chat" || String.eqb lowered EmptyString)
        then Ret (sanitize_filename t ++ ".md")
        else fallback
    | _ => Raise AttributeError
    end
  else fallback.

(** What the run has done so far: the file system, the lines printed, and
    the success counter. *)
Record state `{PyLib} : Type := mk_state {
  disk : fs;
  console : list string;
  count : nat
}.

Arguments mk_state {_} _ _ _.

Definition print `{PyLib} (line : string) (st : state) : state :=
  mk_state (disk st) (console st ++ [line])%list (count st).

(** Lines 129-141: everything the loop body computes before it touches the
    console or the disk. *)
Definition prepare `{PyLib} (fuel : nat) (convo : json)
    : outcome (json * string * list string) :=
  title <- py_get convo "title" JNull ;;
  create_time <- py_get convo "create_time" JNull ;;
  filename <- output_filename title create_time ;;
  messages <- get_conversation_messages fuel convo ;;
  Ret (title, filename, messages).

(** Lines 150-151: what is written to the file. *)
Definition document `{PyLib} (title : json) (messages : list string) : string :=
  "# " ++ py_format (py_or title (JStr "Conversation")) ++ nl ++ nl
  ++ String.concat EmptyString messages.

(** Lines 142-155 *)
Definition emit `{PyLib} (title : json) (filename : string)
    (messages : list string) (st : state) : state :=
  match messages with
  | [] =>
      print ("Skipping conversation (no messages found): "
             ++ py_format (py_or title (JStr "Untitled"))) st
  | _ :: _ =>
      let output_path := os_path_join OUTPUT_DIR filename in
      match write_text (disk st) output_path (document title messages) with
      | (d, None) =>
          let line := "Successfully saved: " ++ output_path in
          mk_state d (console st ++ [line])%list (S (count st))
      | (d, Some e) =>
          let line := "Error writing file " ++ output_path ++ ": " ++ e in
          mk_state d (console st ++ [line])%list (count st)
      end
  end.

(** One iteration of the loop of line 128. *)
Definition export_one `{PyLib} (fuel : nat) (convo : json) (st : state)
    : state * outcome unit :=
  match prepare fuel convo with
  | Ret (title, filename, messages) => (emit title filename messages st, Ret tt)
  | Raise e => (st, Raise e)
  | OutOfFuel => (st, OutOfFuel)
  end.

Fixpoint export_each `{PyLib} (fuel : nat) (convos : list json) (st : state)
    : state * outcome unit :=
  match convos with
  | [] => (st, Ret tt)
  | convo :: rest =>
      match export_one fuel convo st with
      | (st', Ret _) => export_each fuel rest st'
      | stopped => stopped
      end
  end.

Definition string_of_nat (n : nat) : string :=
  NilEmpty.string_of_uint (Nat.to_uint n).

(** Lines 127-157 *)
Definition export_all `{PyLib} (fuel : nat) (conversations : json) (st : state)
    : state * outcome unit :=
  match py_iter conversations with
  | Ret convos =>
      match export_each fuel convos st with
      | (st', Ret _) =>
          (print (nl ++ "Processing complete. Successfully exported "
                  ++ string_of_nat (count st') ++ " conversations.") st', Ret tt)
      | stopped => stopped
      end
  | Raise e => (st, Raise e)
  | OutOfFuel => (st, OutOfFuel)
  end.

(** ** The mapping as a graph

    These definitions read the parent and child pointers of a mapping and
    name the nodes the loop of [walk] visits; the theorems below relate them
    to [walk]. *)

(** The entries of [node['children']], as a [for] loop would draw them. *)
Definition children_of (mapping : list (string * json)) (k : string) : list json :=
  match lookup k mapping with
  | Some node =>
      match py_get node "children" (JList []) with
      | Ret cs => match py_iter cs with Ret l => l | _ => [] end
      | _ => []
      end
  | None => []
  end.

(** [c] is listed among the children of [k] and is itself a node. *)
Definition child (mapping : list (string * json)) (k c : string) : Prop :=
  In (JStr c) (children_of mapping k) /\ lookup c mapping <> None.

Definition acyclic (mapping : list (string * json)) : Prop :=
  forall k, ~ clos_trans string (child mapping) k k.

Definition descendant (mapping : list (string * json)) (k x : string) : Prop :=
  clos_refl_trans string (child mapping) k x.

(** The parent pointer of [c], when it names a node id. *)
Definition parent_of (mapping : list (string * json)) (c : string) : option string :=
  match lookup c mapping with
  | Some node =>
      match py_get node "parent" JNull with
      | Ret (JStr p) => Some p
      | _ => None
      end
  | None => None
  end.

(** Parent and child pointers agree. *)
Definition tree_shaped (mapping : list (string * json)) : Prop :=
  forall k c, child mapping k c -> parent_of mapping c = Some k.

(** The ids of the nodes the loop visits from [k], in order, as long as the
    fuel lasts. *)
Fixpoint main_line (fuel : nat) (mapping : list (string * json)) (k : string)
    : list string :=
  match fuel with
  | O => []
  | S fuel' =>
      match lookup k mapping with
      | None => []
      | Some node =>
          k :: match next_node node with
               | Ret (Some (JStr c)) => main_line fuel' mapping c
               | _ => []
               end
      end
  end.

(** Every id of the list is a node and each one's first child is the next. *)
Fixpoint first_child_line (mapping : list (string * json)) (l : list string) : Prop :=
  match l with
  | [] => True
  | k :: l' =>
      lookup k mapping <> None /\
      match l' with
      | [] => True
      | c :: _ =>
          (exists node, lookup k mapping = Some node /\
                        next_node node = Ret (Some (JStr c))) /\
          first_child_line mapping l'
      end
  end.

(** Consecutive ids are linked by [child]. *)
Fixpoint linked (mapping : list (string * json)) (l : list string) : Prop :=
  match l with
  | [] => True
  | k :: l' =>
      lookup k mapping <> None /\
      match l' with
      | [] => True
      | c :: _ => child mapping k c /\ linked mapping l'
      end
  end.

(** The blocks the node [k] appends when it is visited. *)
Definition blocks_at `{PyLib} (mapping : list (string * json)) (k : string)
    : list string :=
  match lookup k mapping with
  | Some node => match node_blocks node with Ret bs => bs | _ => [] end
  | None => []
  end.

(** The loop gets from the id in the first place to the id in the second
    without raising. *)
Inductive reaches `{PyLib} (mapping : list (string * json)) : json -> json -> Prop :=
| reaches_here : forall c, reaches mapping c c
| reaches_step : forall k node bs c c',
    lookup k mapping = Some node ->
    node_blocks node = Ret bs ->
    next_node node = Ret (Some c) ->
    reaches mapping c c' ->
    reaches mapping (JStr k) c'.

(** [iter_parent n x]: the [n]-th ancestor of [x] by parent pointers. *)
Fixpoint iter_parent (mapping : list (string * json)) (n : nat) (x : string)
    : option string :=
  match n with
  | O => Some x
  | S n' =>
      match iter_parent mapping n' x with
      | Some y => parent_of mapping y
      | None => None
      end
  end.

(** [x] is [n] child steps below [k]. *)
Inductive below (mapping : list (string * json)) : nat -> string -> string -> Prop :=
| below_O : forall k, below mapping 0 k k
| below_S : forall n k y x,
    child mapping k y -> below mapping n y x -> below mapping (S n) k x.

(** ** Notions used by the statements *)

(** The node has a [message] that the generator of line 62 keeps. *)
Definition carries_message (node : json) : bool :=
  match py_get node "message" JNull with
  | Ret m => truthy m
  | _ => false
  end.

(** The timestamp of the node's message, when it is a number. *)
Definition timestamp (node : json) : option Q :=
  match create_time_of node with
  | Ret t => as_number t
  | _ => None
  end.

(** The node's [parent] is absent or null. *)
Definition parentless (node : json) : Prop :=
  py_get node "parent" JNull = Ret JNull.

(** The node's [parent] is present and not null. *)
Definition has_parent (node : json) : Prop :=
  exists p, py_get node "parent" JNull = Ret p /\ is_none p = false.

(** [message_data['author']['role']] *)
Definition author_role_of (message_data : json) : outcome json :=
  author <- py_getitem message_data "author" ;;
  py_getitem author "role".

(** The concatenation of the rendered parts of a content object. *)
Definition rendered_text `{PyLib} (content : json) : outcome string :=
  content_parts <- py_get content "parts" (JList []) ;;
  parts <- py_iter content_parts ;;
  py_join (map format_message_part parts).

Fixpoint all_space (s : string) : bool :=
  match s with
  | EmptyString => true
  | String c s' => is_space c && all_space s'
  end.

(** The conditions under which a visited node contributes the block [b]:
    it has a message, the message's content is non-empty, the author role is
    a string other than [system], and the rendered text is not blank. *)
Definition emits_block `{PyLib} (node : json) (b : string) : Prop :=
  exists message_data content role text,
    py_get node "message" JNull = Ret message_data /\
    truthy message_data = true /\
    py_get message_data "content" JNull = Ret content /\
    truthy content = true /\
    author_role_of message_data = Ret (JStr role) /\
    role <> "system" /\
    rendered_text content = Ret text /\
    all_space text = false /\
    b = "## " ++ py_title role ++ nl ++ nl ++ text ++ nl ++ nl ++ "---" ++ nl ++ nl.

(** The message lacks [author], or its [author] lacks [role]. *)
Definition lacks_author_role (message_data : json) : Prop :=
  py_getitem message_data "author" = Raise KeyError \/
  exists author, py_getitem message_data "author" = Ret author /\
                 py_getitem author "role" = Raise KeyError.

Definition is_letter (c : ascii) : bool := is_lower c || is_upper c.

(** The character before position [i] is not a letter; at the start of the
    string, [previous_is_cased] says what came before. *)
Definition follows_uncased (previous_is_cased : bool) (s : string) (i : nat) : bool :=
  match i with
  | O => negb previous_is_cased
  | S j => match String.get j s with Some p => negb (is_letter p) | None => false end
  end.

(** Position [i] of [s] holds the first letter of a word: a letter that
    starts the string or follows a character that is not a letter. *)
Definition word_start (s : string) (i : nat) : bool :=
  match String.get i s with
  | Some c => is_letter c && follows_uncased false s i
  | None => false
  end.

(** The filename rule in the words of the specification: strip the illegal
    characters, turn spaces into underscores, keep at most 100 characters. *)
Definition spec_sanitize (title : string) : string :=
  string_take 100
    (string_map (fun c => if Ascii.eqb c " " then "_"%char else c)
       (string_filter (fun c => negb (mem_ascii c illegal_chars)) title)).

(** [s] with the letters at the positions marked in [mask] upper-cased. *)
Fixpoint recase (mask : list bool) (s : string) : string :=
  match s, mask with
  | String c s', true :: mask' => String (to_upper c) (recase mask' s')
  | String c s', false :: mask' => String c (recase mask' s')
  | _, _ => s
  end.

(** After a failure in any record of [convos], the loop still gets to the
    end of the list. *)
Definition failures_isolated `{PyLib} (fuel : nat) (convos : list json) (st : state)
    : Prop :=
  exists st', export_each fuel convos st = (st', Ret tt).

(** ** Checking the shape of a concrete mapping *)

(** [test k c] holds for every node [k] and every listed child [c] that is a
    node. *)
Definition forall_edges (test : string -> string -> bool)
    (mapping : list (string * json)) : bool :=
  forallb
    (fun kv =>
       forallb
         (fun c =>
            match c with
            | JStr c' =>
                match lookup c' mapping with
                | Some _ => test (fst kv) c'
                | None => true
                end
            | _ => true
            end)
         (children_of mapping (fst kv)))
    mapping.

Definition same_id (a : option string) (b : string) : bool :=
  match a with Some x => String.eqb x b | None => false end.

Definition tree_shapedb (mapping : list (string * json)) : bool :=
  forall_edges (fun k c => same_id (parent_of mapping c) k) mapping.

(** The position of [k] among the keys. *)
Fixpoint position (k : string) (keys : list string) : nat :=
  match keys with
  | [] => O
  | k' :: keys' => if String.eqb k k' then O else S (position k keys')
  end.

(** Every child is listed after its parent. *)
Definition children_follow (mapping : list (string * json)) : bool :=
  forall_edges
    (fun k c => position k (map fst mapping) <? position c (map fst mapping))
    mapping.

(** ** Sample data *)

(** A stand-in for the library: every write succeeds unless the path ends
    in [locked.md]. *)
Definition sample_lib : PyLib := {|
  str_of_object := fun _ => "<object>";
  sorted_other := fun _ => Raise TypeError;
  strftime_local := fun _ => Ret "2023-01-01_00-00-00";
  fs := list (string * string);
  write_text := fun d p t =>
    if is_substring "locked.md" p then (d, Some "Permission denied")
    else ((p, t) :: d, None)
|}.

Definition user_message (text : string) (create_time : Q) : json :=
  JDict [("author", JDict [("role", JStr "user")]);
         ("content", JDict [("parts", JList [JStr text])]);
         ("create_time", JNum create_time)].

(** Scenario A of the specification. *)
Definition scenario_A : list (string * json) :=
  [ ("root", JDict [("parent", JNull); ("children", JList [JStr "m1"])]);
    ("m1", JDict [("parent", JStr "root"); ("children", JList []);
                  ("message",
                   JDict [("author", JDict [("role", JStr "user")]);
                          ("content", JDict [("parts", JList [JStr "Hello"])])])]) ].

(** A root with two branches, each with a further node. *)
Definition branching : list (string * json) :=
  [ ("root", JDict [("parent", JNull); ("children", JList [JStr "A"; JStr "B"])]);
    ("A", JDict [("parent", JStr "root"); ("children", JList [JStr "A1"]);
                 ("message", user_message "first" 1)]);
    ("B", JDict [("parent", JStr "root"); ("children", JList [JStr "B1"]);
                 ("message", user_message "second" 2)]);
    ("A1", JDict [("parent", JStr "A"); ("children", JList []);
                  ("message", user_message "reply to first" 3)]);
    ("B1", JDict [("parent", JStr "B"); ("children", JList []);
                  ("message", user_message "reply to second" 4)]) ].

(** No node without a parent: the fallback of lines 59-68 applies. *)
Definition rootless : list (string * json) :=
  [ ("n2", JDict [("id", JStr "n2"); ("parent", JStr "gone"); ("children", JList []);
                  ("message", user_message "later" 20)]);
    ("n1", JDict [("id", JStr "n1"); ("parent", JStr "gone");
                  ("children", JList [JStr "n2"]);
                  ("message", user_message "earlier" 10)]) ].

(** [rootless] as the data model describes nodes: no [id] field inside
    the node. *)
Definition rootless_without_ids : list (string * json) :=
  [ ("n2", JDict [("parent", JStr "gone"); ("children", JList []);
                  ("message", user_message "later" 20)]);
    ("n1", JDict [("parent", JStr "gone"); ("children", JList [JStr "n2"]);
                  ("message", user_message "earlier" 10)]) ].

(** [rootless] with [id] fields that are not the keys of the mapping. *)
Definition rootless_other_ids : list (string * json) :=
  [ ("n2", JDict [("id", JStr "msg-2"); ("parent", JStr "gone"); ("children", JList []);
                  ("message", user_message "later" 20)]);
    ("n1", JDict [("id", JStr "msg-1"); ("parent", JStr "gone");
                  ("children", JList [JStr "n2"]);
                  ("message", user_message "earlier" 10)]) ].

(** A node whose only child is itself. *)
Definition self_loop : list (string * json) :=
  [ ("a", JDict [("parent", JNull); ("children", JList [JStr "a"])]) ].

(** A message with content and no author. *)
Definition anonymous : list (string * json) :=
  [ ("root", JDict [("parent", JNull); ("children", JList [JStr "m1"])]);
    ("m1", JDict [("parent", JStr "root"); ("children", JList []);
                  ("message",
                   JDict [("content", JDict [("parts", JList [JStr "Hello"])])])]) ].

Definition conversation (title : string) (mapping : list (string * json)) : json :=
  JDict [("title", JStr title); ("create_time", JNum 0); ("mapping", JDict mapping)].

Definition fresh `{PyLib} (d : fs) : state := mk_state d [] 0.

(** ** [main] (lines 98-157) *)

Definition INPUT_FILE : string := "conversations.json".

(** What lines 116-124 can see of [open] followed by [json.load]: the
    decoded value, a [JSONDecodeError], or any other exception with its
    text. *)
Inductive load_result : Type :=
| Loaded (conversations : json)
| DecodeError
| OtherError (text : string).

(** The rest of the operating system as [main] uses it:
    [os.path.exists], [os.makedirs] (which may raise) and reading the input
    file. *)
Class PyOS (L : PyLib) : Type := {
  path_exists : fs -> string -> bool;
  makedirs : fs -> string -> fs * option exn;
  load_json : fs -> string -> load_result
}.

Definition with_disk `{PyLib} (d : fs) (st : state) : state :=
  mk_state d (console st) (count st).

(** Lines 110-113 *)
Definition ensure_output_dir {L : PyLib} {O : PyOS L} (st : state)
    : state * outcome unit :=
  if negb (path_exists (disk st) OUTPUT_DIR) then
    match makedirs (disk st) OUTPUT_DIR with
    | (d, None) =>
        (print ("Created output directory: '" ++ OUTPUT_DIR ++ "'") (with_disk d st),
         Ret tt)
    | (d, Some e) => (with_disk d st, Raise e)
    end
  else (st, Ret tt).

Definition main {L : PyLib} {O : PyOS L} (fuel : nat) (st : state)
    : state * outcome unit :=
  let st := print "Starting ChatGPT conversation parser..." st in
  if negb (path_exists (disk st) INPUT_FILE) then
    let st := print ("Error: Input file '" ++ INPUT_FILE ++ "' not found.") st in
    (print ("Please make sure your ChatGPT export's 'conversations.json' "
            ++ "is in the same directory.") st,
     Ret tt)
  else
    match ensure_output_dir st with
    | (st, Ret _) =>
        match load_json (disk st) INPUT_FILE with
        | Loaded conversations =>
            export_all fuel conversations (mk_state (disk st) (console st) 0)
        | DecodeError =>
            (print ("Error: Could not decode JSON from '" ++ INPUT_FILE
                    ++ "'. The file might be corrupted.") st,
             Ret tt)
        | OtherError e =>
            (print ("An unexpected error occurred while reading the file: " ++ e) st,
             Ret tt)
        end
    | stopped => stopped
    end.

(** ** Further notions used by the statements *)

Fixpoint string_forall (f : ascii -> bool) (s : string) : bool :=
  match s with
  | EmptyString => true
  | String c s' => f c && string_forall f s'
  end.

(** A character [sanitize_filename] lets through as it is. *)
Definition clean (c : ascii) : bool :=
  negb (mem_ascii c illegal_chars) && negb (Ascii.eqb c " ").

Definition is_json_string (v : json) : bool :=
  match v with JStr _ => true | _ => false end.

Definition is_json_dict (v : json) : bool :=
  match v with JDict _ => true | _ => false end.

(** The lines of the console that report a saved file. *)
Definition saved_lines (lines : list string) : list string :=
  filter (prefix "Successfully saved: ") lines.

(** A stand-in for the operating system over [sample_lib]: a path exists
    when a file was written there, directories can always be made, and the
    input file decodes to the given value. *)
Definition sample_os (input : load_result) : PyOS sample_lib :=
  @Build_PyOS sample_lib
    (fun d p => String.eqb p INPUT_FILE
                || existsb (fun f : string * string => String.eqb (fst f) p) d)
    (fun d p => (((p, EmptyString) :: d) : list (string * string), None))
    (fun _ _ => input).

(** * Properties *)

(** ** The outcome monad *)

Lemma bind_ret_inv {A B : Type} (m : outcome A) (k : A -> outcome B) (b : B) :
  bind m k = Ret b -> exists a, m = Ret a /\ k a = Ret b.
Proof.
  destruct m as [a | e | ]; simpl; intro E; try discriminate.
  exists a; split; [reflexivity | exact E].
Qed.

Lemma bind_out_of_fuel_inv {A B : Type} (m : outcome A) (k : A -> outcome B) :
  bind m k = OutOfFuel -> m = OutOfFuel \/ exists a, m = Ret a /\ k a = OutOfFuel.
Proof.
  destruct m as [a | e | ]; simpl; intro E; try discriminate.
  - right; exists a; split; [reflexivity | exact E].
  - left; reflexivity.
Qed.

Ltac bind_inv H :=
  let a := fresh "v" in
  let E := fresh "E" in
  apply bind_ret_inv in H; destruct H as [a [E H]].

(** ** Strings *)

Lemma strip_blank (s : string) : is_empty (py_strip s) = all_space s.
Proof.
  unfold py_strip.
  induction s as [| c s IH]; simpl; [reflexivity |].
  destruct (is_space c) eqn:Ec; simpl; [exact IH |].
  rewrite Ec, andb_false_r; reflexivity.
Qed.

Lemma string_app_empty_r (s : string) : s ++ EmptyString = s.
Proof.
  induction s as [| c s IH]; simpl; [reflexivity | now rewrite IH].
Qed.

(** ** Dictionary access *)

Lemma py_get_dict (v : json) (k : string) (default x : json) :
  py_get v k default = Ret x -> exists d, v = JDict d.
Proof.
  destruct v; simpl; intro E; try discriminate; eauto.
Qed.

Lemma py_getitem_dict (v : json) (k : string) (x : json) :
  py_getitem v k = Ret x -> exists d, v = JDict d /\ lookup k d = Some x.
Proof.
  destruct v as [| | | | | d]; simpl; intro E; try discriminate.
  destruct (lookup k d) eqn:El; inversion E; subst; eauto.
Qed.

(** ** One visited node *)

Section Node.
Context {L : PyLib}.

Lemma node_blocks_at_most_one (node : json) (bs : list string) :
  node_blocks node = Ret bs -> List.length bs <= 1.
Proof.
  unfold node_blocks; intro H.
  bind_inv H. destruct (truthy v); simpl in H; [| inversion H; simpl; lia].
  bind_inv H. destruct (truthy v0); simpl in H; [| inversion H; simpl; lia].
  bind_inv H. bind_inv H.
  destruct (is_str "system" v2); [inversion H; simpl; lia |].
  bind_inv H. bind_inv H. bind_inv H. bind_inv H.
  destruct (is_empty (py_strip v6)); inversion H; simpl; lia.
Qed.

Lemma node_blocks_emits (node : json) (b : string) :
  node_blocks node = Ret [b] <-> emits_block node b.
Proof.
  split.
  - unfold node_blocks; intro H.
    bind_inv H. destruct (truthy v) eqn:Tm; simpl in H; [| discriminate].
    bind_inv H. destruct (truthy v0) eqn:Tc; simpl in H; [| discriminate].
    bind_inv H. bind_inv H.
    destruct (is_str "system" v2) eqn:Es; [discriminate |].
    bind_inv H. bind_inv H. bind_inv H. bind_inv H.
    destruct (is_empty (py_strip v6)) eqn:Eb; [discriminate |].
    destruct v2 as [| | | role | |]; simpl in E3; try discriminate.
    inversion E3; subst v3; clear E3.
    inversion H; subst b; clear H.
    exists v, v0, role, v6.
    repeat split; try assumption.
    + unfold author_role_of; rewrite E1; simpl; exact E2.
    + intro Hr; subst role; simpl in Es; discriminate.
    + unfold rendered_text; rewrite E4; simpl; rewrite E5; simpl; exact E6.
    + rewrite <- strip_blank; exact Eb.
  - intros (m & c & role & text & Em & Tm & Ec & Tc & Er & Hr & Et & Hb & ->).
    unfold node_blocks.
    rewrite Em; simpl; rewrite Tm; simpl.
    rewrite Ec; simpl; rewrite Tc; simpl.
    unfold author_role_of in Er.
    destruct (py_getitem m "author") as [a | |]; simpl in Er; try discriminate.
    simpl; rewrite Er; simpl.
    destruct (String.eqb role "system") eqn:Es.
    + apply String.eqb_eq in Es; contradiction.
    + unfold rendered_text in Et.
      destruct (py_get c "parts" (JList [])) as [cp | |]; simpl in Et; try discriminate.
      simpl.
      destruct (py_iter cp) as [ps | |]; simpl in Et; try discriminate.
      simpl; rewrite Et; simpl.
      rewrite strip_blank, Hb; reflexivity.
Qed.

Lemma node_blocks_key_error (node : json) :
  node_blocks node = Raise KeyError <->
  exists message_data content,
    py_get node "message" JNull = Ret message_data /\
    truthy message_data = true /\
    py_get message_data "content" JNull = Ret content /\
    truthy content = true /\
    lacks_author_role message_data.
Proof.
  unfold node_blocks, lacks_author_role; split.
  - intro H.
    destruct (py_get node "message" JNull) as [m | e |] eqn:Em; simpl in H;
      [| destruct node; simpl in Em; try discriminate; congruence | discriminate].
    destruct (truthy m) eqn:Tm; simpl in H; [| discriminate].
    destruct (py_get m "content" JNull) as [c | e |] eqn:Ec; simpl in H;
      [| destruct m; simpl in Ec; try discriminate; congruence | discriminate].
    destruct (truthy c) eqn:Tc; simpl in H; [| discriminate].
    exists m, c; repeat split; try assumption.
    destruct (py_getitem m "author") as [a | e |] eqn:Ea; simpl in H;
      [| left; congruence | discriminate].
    right; exists a; split; [reflexivity |].
    destruct (py_getitem a "role") as [r | e |] eqn:Er; simpl in H;
      [| congruence | discriminate].
    destruct (is_str "system" r); [discriminate |].
    destruct r; simpl in H; try discriminate.
    destruct (py_get c "parts" (JList [])) as [cp | e |] eqn:Ep; simpl in H;
      [| destruct c; simpl in Ep; try discriminate; congruence | discriminate].
    destruct (py_iter cp) as [ps | e |] eqn:Ei; simpl in H;
      [| destruct cp; simpl in Ei; try discriminate; congruence | discriminate].
    exfalso.
    assert (J : forall items, py_join items <> Raise KeyError).
    { induction items as [| x items IH]; simpl; [discriminate |].
      destruct x; try discriminate.
      destruct (py_join items) as [r | e |]; simpl; try discriminate.
      intro E; apply IH; exact E. }
    destruct (py_join (map format_message_part ps)) as [t | e |] eqn:Ej; simpl in H.
    + destruct (is_empty (py_strip t)); discriminate.
    + apply (J (map format_message_part ps)); congruence.
    + discriminate.
  - intros (m & c & Em & Tm & Ec & Tc & [Ea | (a & Ea & Er)]).
    + rewrite Em; simpl; rewrite Tm; simpl; rewrite Ec; simpl; rewrite Tc; simpl.
      rewrite Ea; reflexivity.
    + rewrite Em; simpl; rewrite Tm; simpl; rewrite Ec; simpl; rewrite Tc; simpl.
      rewrite Ea; simpl; rewrite Er; reflexivity.
Qed.

End Node.

(** ** The traversal loop *)

Section Walk.
Context {L : PyLib}.
Variable mapping : list (string * json).

Lemma walk_absent (fuel : nat) (k : string) (acc : list string) :
  lookup k mapping = None -> walk (S fuel) mapping (JStr k) acc = Ret acc.
Proof.
  intro E; simpl; rewrite E; reflexivity.
Qed.

Lemma walk_step (fuel : nat) (k : string) (node c : json) (bs acc : list string) :
  lookup k mapping = Some node ->
  node_blocks node = Ret bs ->
  next_node node = Ret (Some c) ->
  walk (S fuel) mapping (JStr k) acc = walk fuel mapping c (acc ++ bs)%list.
Proof.
  intros E Eb En; simpl; rewrite E; simpl; rewrite Eb; simpl; rewrite En; reflexivity.
Qed.

Lemma walk_stop (fuel : nat) (k : string) (node : json) (bs acc : list string) :
  lookup k mapping = Some node ->
  node_blocks node = Ret bs ->
  next_node node = Ret None ->
  walk (S fuel) mapping (JStr k) acc = Ret (acc ++ bs)%list.
Proof.
  intros E Eb En; simpl; rewrite E; simpl; rewrite Eb; simpl; rewrite En; reflexivity.
Qed.

Lemma walk_raise (fuel : nat) (k : string) (node : json) (e : exn) (acc : list string) :
  lookup k mapping = Some node ->
  node_blocks node = Raise e ->
  walk (S fuel) mapping (JStr k) acc = Raise e.
Proof.
  intros E Eb; simpl; rewrite E; simpl; rewrite Eb; reflexivity.
Qed.

(** An id that is not a string is never found in the mapping. *)
Lemma walk_not_string (fuel : nat) (c : json) (acc out : list string) :
  (forall k, c <> JStr k) ->
  walk fuel mapping c acc = Ret out -> out = acc.
Proof.
  intros Hc H; destruct fuel as [| fuel]; simpl in H; [discriminate |].
  destruct c; simpl in H; try discriminate; try (inversion H; reflexivity).
  exfalso; eapply Hc; reflexivity.
Qed.

Lemma walk_not_string_fuel (fuel : nat) (c : json) (acc : list string) :
  (forall k, c <> JStr k) ->
  walk (S fuel) mapping c acc <> OutOfFuel.
Proof.
  intros Hc; simpl.
  destruct c; simpl; try discriminate.
  exfalso; eapply Hc; reflexivity.
Qed.

Lemma node_blocks_fuel (node : json) : node_blocks node <> OutOfFuel.
Proof.
  unfold node_blocks.
  destruct (py_get node "message" JNull) as [m | |] eqn:Em; simpl; try discriminate;
    [| destruct node; discriminate].
  destruct (truthy m); simpl; [| discriminate].
  destruct (py_get m "content" JNull) as [c | |] eqn:Ec; simpl; try discriminate;
    [| destruct m; discriminate].
  destruct (truthy c); simpl; [| discriminate].
  destruct (py_getitem m "author") as [a | |] eqn:Ea; simpl; try discriminate;
    [| destruct m as [| | | | | d]; try discriminate;
       simpl in Ea; destruct (lookup "author" d); discriminate].
  destruct (py_getitem a "role") as [r | |] eqn:Er; simpl; try discriminate;
    [| destruct a as [| | | | | d]; try discriminate;
       simpl in Er; destruct (lookup "role" d); discriminate].
  destruct (is_str "system" r); [discriminate |].
  destruct r; simpl; try discriminate.
  destruct (py_get c "parts" (JList [])) as [cp | |] eqn:Ep; simpl; try discriminate;
    [| destruct c; discriminate].
  destruct (py_iter cp) as [ps | |] eqn:Ei; simpl; try discriminate;
    [| destruct cp; discriminate].
  assert (J : forall items, py_join items <> OutOfFuel).
  { induction items as [| x items IH]; simpl; [discriminate |].
    destruct x; try discriminate.
    destruct (py_join items) as [t | |]; simpl; try discriminate.
    exfalso; apply IH; reflexivity. }
  destruct (py_join (map format_message_part ps)) as [t | |] eqn:Ej; simpl;
    try discriminate.
  - destruct (is_empty (py_strip t)); discriminate.
  - exfalso; apply (J _ Ej).
Qed.

Lemma next_node_fuel (node : json) : next_node node <> OutOfFuel.
Proof.
  unfold next_node.
  destruct node as [| | | | | d]; simpl; try discriminate.
  destruct (truthy _); [| discriminate].
  destruct (py_first _) eqn:E; simpl; try discriminate.
  destruct (match lookup "children" d with Some x => x | None => JList [] end)
    as [| | | s | l | d']; simpl in E; try discriminate;
    [destruct s | destruct l]; discriminate.
Qed.

(** The output is what was accumulated before, followed by the blocks of
    the visited nodes in the order of the visit. *)
Lemma walk_main_line (fuel : nat) :
  forall (k : string) (acc out : list string),
    walk fuel mapping (JStr k) acc = Ret out ->
    out = (acc ++ flat_map (blocks_at mapping) (main_line fuel mapping k))%list.
Proof.
  induction fuel as [| fuel IH]; intros k acc out H; [discriminate |].
  simpl in H |- *.
  destruct (lookup k mapping) as [node |] eqn:E; simpl in H.
  - bind_inv H. bind_inv H.
    assert (B : blocks_at mapping k = v) by (unfold blocks_at; rewrite E, E0; reflexivity).
    simpl; rewrite B, E1.
    destruct v0 as [c |].
    + destruct c as [| | | c | |];
        try (apply walk_not_string in H; [| intros ? ?; discriminate];
             subst out; simpl; rewrite app_nil_r; reflexivity).
      apply IH in H; subst out; rewrite <- app_assoc; reflexivity.
    + inversion H; simpl; rewrite app_nil_r; reflexivity.
  - inversion H; simpl; rewrite app_nil_r; reflexivity.
Qed.

Lemma main_line_head (fuel : nat) (k x : string) (l : list string) :
  main_line fuel mapping k = x :: l -> x = k /\ lookup k mapping <> None.
Proof.
  destruct fuel as [| fuel]; simpl; [discriminate |].
  destruct (lookup k mapping); [| discriminate].
  intro E; inversion E; split; [reflexivity | discriminate].
Qed.

Lemma main_line_first_child (fuel : nat) :
  forall k, first_child_line mapping (main_line fuel mapping k).
Proof.
  induction fuel as [| fuel IH]; intro k; simpl; [exact I |].
  destruct (lookup k mapping) as [node |] eqn:E; simpl; [| exact I].
  split; [congruence |].
  destruct (next_node node) as [[c |] | |] eqn:En; try exact I.
  destruct c as [| | | c | |]; try exact I.
  destruct (main_line fuel mapping c) as [| x l] eqn:El; [exact I |].
  apply main_line_head in El as Hx; destruct Hx as [-> _].
  split; [exists node; split; [exact E | exact En] |].
  rewrite <- El; apply IH.
Qed.

Lemma next_node_listed (node c : json) :
  next_node node = Ret (Some c) ->
  exists cs l, py_get node "children" (JList []) = Ret cs /\
               py_iter cs = Ret l /\ In c l.
Proof.
  unfold next_node; intro H.
  bind_inv H. destruct (truthy v); [| discriminate].
  bind_inv H. inversion H; subst v0; clear H.
  exists v.
  destruct v as [| | | s | l | d]; simpl in E0; try discriminate.
  - destruct s as [| a s]; [discriminate |].
    inversion E0; subst c.
    eexists; split; [exact E | split; [reflexivity | simpl; left; reflexivity]].
  - destruct l as [| x l]; [discriminate |].
    inversion E0; subst c.
    eexists; split; [exact E | split; [reflexivity | simpl; left; reflexivity]].
Qed.

Lemma first_child_is_child (k c : string) (node : json) :
  lookup k mapping = Some node ->
  next_node node = Ret (Some (JStr c)) ->
  lookup c mapping <> None ->
  child mapping k c.
Proof.
  intros E En Hc; split; [| exact Hc].
  apply next_node_listed in En; destruct En as (cs & l & Eg & Ei & Hin).
  unfold children_of; rewrite E, Eg, Ei; exact Hin.
Qed.

Lemma first_child_line_linked (l : list string) :
  first_child_line mapping l -> linked mapping l.
Proof.
  induction l as [| k l IH]; simpl; [trivial |].
  intros [Hk H]; split; [exact Hk |].
  destruct l as [| c l']; [exact I |].
  destruct H as [(node & E & En) Hl].
  split; [| apply IH; exact Hl].
  apply (first_child_is_child k c node E En).
  simpl in Hl; destruct Hl as [Hc _]; exact Hc.
Qed.

Lemma main_line_linked (fuel : nat) (k : string) :
  linked mapping (main_line fuel mapping k).
Proof.
  apply first_child_line_linked, main_line_first_child.
Qed.

Lemma linked_tail (k : string) (l : list string) :
  linked mapping (k :: l) -> linked mapping l.
Proof.
  simpl; intros [_ H]; destruct l as [| c l]; [exact I | apply H].
Qed.

Lemma linked_keys (l : list string) :
  linked mapping l -> forall x, In x l -> lookup x mapping <> None.
Proof.
  induction l as [| k l IH]; intros H x Hx; [contradiction |].
  destruct Hx as [-> | Hx]; [exact (proj1 H) |].
  apply IH; [eapply linked_tail; exact H | exact Hx].
Qed.

Lemma linked_below (l : list string) :
  forall k, linked mapping (k :: l) ->
  forall x, In x (k :: l) -> exists n, below mapping n k x.
Proof.
  induction l as [| c l IH]; intros k H x Hx.
  - destruct Hx as [<- | []]; exists 0; constructor.
  - destruct Hx as [<- | Hx]; [exists 0; constructor |].
    destruct H as [_ [Hc Hl]].
    destruct (IH c Hl x Hx) as [n Hn].
    exists (S n); econstructor; eassumption.
Qed.

Lemma below_trans_closure (n : nat) (k x : string) :
  below mapping (S n) k x -> clos_trans string (child mapping) k x.
Proof.
  revert k; induction n as [| n IH]; intros k H; inversion H; subst.
  - match goal with Hb : below _ 0 _ _ |- _ => inversion Hb; subst end.
    apply t_step; assumption.
  - eapply t_trans; [apply t_step; eassumption | apply IH; assumption].
Qed.

Lemma linked_NoDup (l : list string) :
  acyclic mapping -> linked mapping l -> NoDup l.
Proof.
  intro Hac; induction l as [| k l IH]; intro H; constructor.
  - intro Hin.
    assert (Hx : In k (k :: l)) by (right; exact Hin).
    destruct l as [| c l]; [contradiction |].
    destruct H as [_ [Hc Hl]].
    destruct (linked_below l c Hl k Hin) as [n Hn].
    apply (Hac k), (below_trans_closure n).
    econstructor; eassumption.
  - apply IH; eapply linked_tail; exact H.
Qed.

Lemma lookup_in_keys (k : string) :
  lookup k mapping <> None -> In k (map fst mapping).
Proof.
  induction mapping as [| [k' v] m IH]; simpl; [congruence |].
  destruct (String.eqb k k') eqn:E.
  - apply String.eqb_eq in E; subst; left; reflexivity.
  - intro H; right; apply IH; exact H.
Qed.

Lemma linked_length (l : list string) :
  acyclic mapping -> linked mapping l -> List.length l <= List.length mapping.
Proof.
  intros Hac H.
  rewrite <- (length_map fst mapping).
  apply NoDup_incl_length; [apply linked_NoDup; assumption |].
  intros x Hx; apply lookup_in_keys; eapply linked_keys; eassumption.
Qed.

(** The loop runs out of fuel only after visiting as many nodes as it had
    fuel. *)
Lemma walk_out_of_fuel (fuel : nat) :
  forall (k : string) (acc : list string),
    walk fuel mapping (JStr k) acc = OutOfFuel ->
    List.length (main_line fuel mapping k) = fuel.
Proof.
  induction fuel as [| fuel IH]; intros k acc H; [reflexivity |].
  simpl in H |- *.
  destruct (lookup k mapping) as [node |] eqn:E; simpl in H; [| discriminate].
  destruct (node_blocks node) as [bs | e |] eqn:Eb; simpl in H;
    [| discriminate | exfalso; exact (node_blocks_fuel _ Eb)].
  destruct (next_node node) as [[c |] | e |] eqn:En; simpl in H;
    try discriminate; [| exfalso; exact (next_node_fuel _ En)].
  simpl; f_equal.
  destruct fuel as [| fuel'].
  - destruct c; reflexivity.
  - destruct c as [| | | c | |];
      try (exfalso; revert H; apply walk_not_string_fuel; intros ? ?; discriminate).
    eapply IH; exact H.
Qed.

Lemma walk_terminates_acyclic (start : json) (acc : list string) :
  acyclic mapping ->
  walk (S (List.length mapping)) mapping start acc <> OutOfFuel.
Proof.
  intros Hac H.
  destruct start as [| | | k | |];
    try (revert H; apply walk_not_string_fuel; intros ? ?; discriminate).
  apply walk_out_of_fuel in H.
  pose proof (linked_length _ Hac (main_line_linked (S (List.length mapping)) k)) as Hl.
  lia.
Qed.

(** More fuel does not change a result already obtained. *)
Lemma walk_more_fuel (fuel : nat) :
  forall (start : json) (acc : list string) (n : nat),
    walk fuel mapping start acc <> OutOfFuel ->
    walk (fuel + n) mapping start acc = walk fuel mapping start acc.
Proof.
  induction fuel as [| fuel IH]; intros start acc n H; [contradiction H; reflexivity |].
  simpl in H |- *.
  destruct (key_in start mapping) as [[|] | e |]; simpl in H |- *; try reflexivity.
  destruct (node_at start mapping) as [node | e |]; simpl in H |- *; try reflexivity.
  destruct (node_blocks node) as [bs | e |]; simpl in H |- *; try reflexivity.
  destruct (next_node node) as [[c |] | e |]; simpl in H |- *; try reflexivity.
  apply IH; exact H.
Qed.

End Walk.

(** ** Trees: a side branch never meets the main line *)

Section Tree.
Variable mapping : list (string * json).
Hypothesis tree : tree_shaped mapping.

Lemma below_iter_parent (n : nat) (k x : string) :
  below mapping n k x -> iter_parent mapping n x = Some k.
Proof.
  induction 1 as [k | n k y x Hc Hb IH]; simpl; [reflexivity |].
  rewrite IH; apply tree; exact Hc.
Qed.

Lemma iter_parent_add (m n : nat) (x : string) :
  iter_parent mapping (m + n) x =
  match iter_parent mapping n x with
  | Some y => iter_parent mapping m y
  | None => None
  end.
Proof.
  induction m as [| m IH]; simpl.
  - destruct (iter_parent mapping n x); reflexivity.
  - rewrite IH; destruct (iter_parent mapping n x); reflexivity.
Qed.

Lemma iter_parent_above_root (root : string) (m : nat) :
  parent_of mapping root = None -> iter_parent mapping (S m) root = None.
Proof.
  intro Hr.
  replace (S m) with (m + 1) by lia.
  rewrite iter_parent_add; simpl; rewrite Hr; reflexivity.
Qed.

(** A node has one depth below a root. *)
Lemma depth_unique (root x : string) (p q : nat) :
  parent_of mapping root = None ->
  iter_parent mapping p x = Some root ->
  iter_parent mapping q x = Some root ->
  p = q.
Proof.
  intros Hr Hp Hq.
  destruct (Nat.lt_trichotomy p q) as [Hlt | [Heq | Hgt]]; [| exact Heq |]; exfalso.
  - replace q with (S (q - p - 1) + p) in Hq by lia.
    rewrite iter_parent_add, Hp, iter_parent_above_root in Hq by exact Hr.
    discriminate.
  - replace p with (S (p - q - 1) + q) in Hp by lia.
    rewrite iter_parent_add, Hq, iter_parent_above_root in Hp by exact Hr.
    discriminate.
Qed.

Lemma descendant_below (k x : string) :
  descendant mapping k x -> exists n, below mapping n k x.
Proof.
  intro H; apply clos_rt_rt1n in H.
  induction H as [k | k y x Hc _ [n IH]].
  - exists 0; constructor.
  - exists (S n); econstructor; eassumption.
Qed.

Lemma below_in_mapping (n : nat) (k x : string) :
  below mapping n k x -> lookup k mapping <> None -> lookup x mapping <> None.
Proof.
  induction 1 as [k | n k y x Hc Hb IH]; intro Hk; [exact Hk |].
  apply IH; exact (proj2 Hc).
Qed.

(** With a root whose children are [a] and [b], nothing below [b] lies on
    the line through [a]. *)
Lemma side_branch_off_line (fuel : nat) (root a b : string) (node : json) (rest : list json) :
  lookup root mapping = Some node ->
  py_get node "parent" JNull = Ret JNull ->
  py_get node "children" (JList []) = Ret (JList (JStr a :: JStr b :: rest)) ->
  a <> b ->
  forall x, descendant mapping b x -> ~ In x (main_line fuel mapping root).
Proof.
  intros E Ep Ec Hab x Hd Hin.
  assert (Hroot : parent_of mapping root = None)
    by (unfold parent_of; rewrite E, Ep; reflexivity).
  assert (Hkids : children_of mapping root = JStr a :: JStr b :: rest)
    by (unfold children_of; rewrite E, Ec; reflexivity).
  assert (Hx : lookup x mapping <> None)
    by (eapply linked_keys; [apply main_line_linked | exact Hin]).
  destruct (descendant_below b x Hd) as [j Hj].
  (* [b] is a node, since [x] is one *)
  assert (Hb : lookup b mapping <> None).
  { inversion Hj as [| n k y x' Hc Hy]; subst; [exact Hx |].
    destruct Hc as [Hc _].
    unfold children_of in Hc.
    destruct (lookup b mapping); [discriminate | contradiction]. }
  assert (Hpb : parent_of mapping b = Some root).
  { apply tree; split; [rewrite Hkids; simpl; auto | exact Hb]. }
  assert (Hjx : iter_parent mapping (S j) x = Some root).
  { simpl; rewrite (below_iter_parent _ _ _ Hj); exact Hpb. }
  destruct fuel as [| fuel]; [contradiction |].
  simpl in Hin; rewrite E in Hin.
  assert (En : next_node node = Ret (Some (JStr a)))
    by (unfold next_node; rewrite Ec; reflexivity).
  rewrite En in Hin.
  destruct Hin as [<- | Hin].
  - (* the root itself *)
    rewrite iter_parent_above_root in Hjx by exact Hroot; discriminate.
  - (* a node on the line from [a] *)
    destruct (main_line fuel mapping a) as [| a' l] eqn:El; [contradiction |].
    apply main_line_head in El as Ha; destruct Ha as [-> Ha].
    assert (Hl : linked mapping (a :: l)) by (rewrite <- El; apply main_line_linked).
    destruct (linked_below mapping l a Hl x Hin) as [i Hi].
    assert (Hpa : parent_of mapping a = Some root).
    { apply tree; split; [rewrite Hkids; simpl; auto | exact Ha]. }
    assert (Hix : iter_parent mapping (S i) x = Some root).
    { simpl; rewrite (below_iter_parent _ _ _ Hi); exact Hpa. }
    assert (i = j) by (pose proof (depth_unique root x _ _ Hroot Hix Hjx); lia).
    subst j.
    apply below_iter_parent in Hi, Hj.
    congruence.
Qed.

End Tree.

(** ** Root selection *)

Lemma lookup_in (k : string) (v : json) (d : list (string * json)) :
  lookup k d = Some v -> In (k, v) d.
Proof.
  induction d as [| [k' v'] d IH]; simpl; [discriminate |].
  destruct (String.eqb k k') eqn:E.
  - apply String.eqb_eq in E; subst; intro H; inversion H; left; reflexivity.
  - intro H; right; apply IH; exact H.
Qed.

Lemma in_lookup (k : string) (v : json) (d : list (string * json)) :
  NoDup (map fst d) -> In (k, v) d -> lookup k d = Some v.
Proof.
  induction d as [| [k' v'] d IH]; simpl; intros Hnd Hin; [contradiction |].
  inversion Hnd as [| ? ? Hk Hnd']; subst.
  destruct Hin as [Heq | Hin].
  - inversion Heq; subst; rewrite String.eqb_refl; reflexivity.
  - destruct (String.eqb k k') eqn:E.
    + apply String.eqb_eq in E; subst.
      exfalso; apply Hk; apply (in_map fst) in Hin; exact Hin.
    + apply IH; assumption.
Qed.

Lemma has_parent_not_parentless (node : json) :
  has_parent node -> ~ parentless node.
Proof.
  intros (p & Ep & Hp) Hn; unfold parentless in Hn.
  rewrite Ep in Hn; inversion Hn; subst; discriminate.
Qed.

Lemma find_parentless_none (items : list (string * json)) :
  (forall k n, In (k, n) items -> has_parent n) ->
  find_parentless items = Ret None.
Proof.
  induction items as [| [k n] items IH]; intro H; simpl; [reflexivity |].
  destruct (H k n (or_introl eq_refl)) as (p & Ep & Hp).
  rewrite Ep; simpl; rewrite Hp.
  apply IH; intros k' n' Hin; eapply H; right; exact Hin.
Qed.

Lemma find_parentless_only (items : list (string * json)) (k : string) (node : json) :
  In (k, node) items ->
  parentless node ->
  (forall k' n', In (k', n') items -> (k', n') = (k, node) \/ has_parent n') ->
  find_parentless items = Ret (Some k).
Proof.
  intros Hin Hroot Hothers.
  induction items as [| [k' n'] items IH]; [contradiction |].
  simpl.
  destruct (Hothers k' n' (or_introl eq_refl)) as [Heq | (p & Ep & Hp)].
  - inversion Heq; subst; rewrite Hroot; reflexivity.
  - rewrite Ep; simpl; rewrite Hp.
    apply IH.
    + destruct Hin as [Heq | Hin]; [| exact Hin].
      inversion Heq; subst.
      unfold parentless in Hroot; rewrite Ep in Hroot.
      inversion Hroot; subst; discriminate.
    + intros k'' n'' H; apply Hothers; right; exact H.
Qed.

Section Root.
Context {L : PyLib}.

(** Lines 45-49 on a record that has a [mapping] dictionary. *)
Lemma get_conversation_messages_mapping (fuel : nat) (convo mapping : list (string * json)) :
  lookup "mapping" convo = Some (JDict mapping) ->
  get_conversation_messages fuel (JDict convo) =
  (root <- select_root mapping ;;
   match root with
   | Some root_node_id => walk fuel mapping root_node_id []
   | None => Ret []
   end).
Proof.
  intro E; unfold get_conversation_messages.
  destruct convo as [| kv convo]; [discriminate |].
  cbn [truthy negb py_contains py_getitem bind].
  rewrite E; reflexivity.
Qed.

Lemma message_nodes_filter (values : list json) :
  (forall n, In n values -> exists d, n = JDict d) ->
  message_nodes values = Ret (filter carries_message values).
Proof.
  induction values as [| n values IH]; intro H; simpl; [reflexivity |].
  destruct (H n (or_introl eq_refl)) as [d ->].
  rewrite IH by (intros; apply H; right; assumption).
  unfold carries_message; simpl.
  destruct (truthy _); reflexivity.
Qed.

Lemma with_keys_numeric (nodes : list json) :
  (forall n, In n nodes -> timestamp n <> None) ->
  exists keyed nk,
    with_keys nodes = Ret keyed /\
    numeric_keys keyed = Some nk /\
    map snd nk = nodes /\
    forall q n, In (q, n) nk -> timestamp n = Some q.
Proof.
  induction nodes as [| n nodes IH]; intro H.
  - exists [], []; repeat split; intros q n [].
  - destruct IH as (keyed & nk & Ek & En & Em & Ht);
      [intros; apply H; right; assumption |].
    pose proof (H n (or_introl eq_refl)) as Hn.
    unfold timestamp in Hn.
    destruct (create_time_of n) as [t | |] eqn:Et; try contradiction.
    destruct (as_number t) as [q |] eqn:Eq; [| contradiction].
    exists ((t, n) :: keyed), ((q, n) :: nk).
    repeat split.
    + simpl; rewrite Et; simpl; rewrite Ek; reflexivity.
    + simpl; rewrite Eq, En; reflexivity.
    + simpl; rewrite Em; reflexivity.
    + intros q' n' [Heq | Hin]; [| apply Ht; exact Hin].
      inversion Heq; subst; unfold timestamp; rewrite Et; exact Eq.
Qed.

End Root.

(** The stable insertion sort puts a least key first. *)
Lemma sort_by_key_head (l : list (Q * json)) :
  match sort_by_key l with
  | [] => l = []
  | x :: _ => In x l /\ forall y, In y l -> (fst x <= fst y)%Q
  end.
Proof.
  induction l as [| x l IH]; simpl; [reflexivity |].
  destruct (sort_by_key l) as [| y r].
  - subst l; simpl; split; [left; reflexivity |].
    intros z [<- | []]; apply Qle_refl.
  - destruct IH as [Hy Hmin]; simpl.
    destruct (Qle_bool (fst x) (fst y)) eqn:E.
    + apply Qle_bool_iff in E.
      split; [left; reflexivity |].
      intros z [<- | Hz]; [apply Qle_refl |].
      eapply Qle_trans; [exact E | apply Hmin; exact Hz].
    + split; [right; exact Hy |].
      intros z [<- | Hz]; [| apply Hmin; exact Hz].
      destruct (Qlt_le_dec (fst y) (fst x)) as [Hlt | Hle].
      * apply Qlt_le_weak; exact Hlt.
      * apply Qle_bool_iff in Hle; congruence.
Qed.

(** ** Case mapping and [str.title] *)

Lemma lower_not_upper (c : ascii) : is_lower c = true -> is_upper c = false.
Proof.
  unfold is_lower, is_upper; cbv zeta.
  destruct (97 <=? nat_of_ascii c) eqn:E1; [| discriminate].
  destruct (nat_of_ascii c <=? 90) eqn:E2; [| rewrite andb_false_r; reflexivity].
  apply Nat.leb_le in E1, E2; lia.
Qed.

Lemma to_lower_to_upper (c : ascii) : to_lower (to_upper c) = to_lower c.
Proof.
  destruct c as [[] [] [] [] [] [] [] []]; reflexivity.
Qed.

Lemma py_lower_recase (s : string) :
  forall mask, py_lower (recase mask s) = py_lower s.
Proof.
  unfold py_lower.
  induction s as [| c s IH]; intros [| [|] mask]; simpl; try reflexivity.
  - rewrite to_lower_to_upper, IH; reflexivity.
  - rewrite IH; reflexivity.
Qed.

Lemma py_lower_empty (s : string) : py_lower s = EmptyString -> s = EmptyString.
Proof.
  destruct s; simpl; [reflexivity | discriminate].
Qed.

Lemma title_from_get (s : string) :
  forall (prev : bool) (i : nat),
    String.get i (title_from prev s) =
    option_map
      (fun c => if is_letter c && follows_uncased prev s i then to_upper c
                else to_lower c)
      (String.get i s).
Proof.
  induction s as [| c s IH]; intros prev i; [destruct i; reflexivity |].
  destruct i as [| j].
  - simpl; unfold is_letter.
    destruct (is_lower c) eqn:El.
    + pose proof (lower_not_upper c El) as Eu.
      destruct prev; simpl; [| reflexivity].
      unfold to_lower; rewrite Eu; reflexivity.
    + destruct (is_upper c) eqn:Eu; simpl.
      * destruct prev; simpl; [reflexivity |].
        unfold to_upper; rewrite El; reflexivity.
      * unfold to_lower; rewrite Eu; reflexivity.
  - assert (F : forall b, b = is_letter c ->
                follows_uncased b s j = follows_uncased prev (String c s) (S j)).
    { intros b ->; destruct j; reflexivity. }
    cbn [title_from].
    destruct (is_lower c) eqn:El; [| destruct (is_upper c) eqn:Eu];
      cbn [String.get]; rewrite IH.
    + rewrite <- (F true) by (unfold is_letter; rewrite El; reflexivity).
      reflexivity.
    + rewrite <- (F true) by (unfold is_letter; rewrite El, Eu; reflexivity).
      reflexivity.
    + rewrite <- (F false) by (unfold is_letter; rewrite El, Eu; reflexivity).
      reflexivity.
Qed.

(** [str.title] letter by letter: the first letter of each word is
    upper-cased, every other character is lower-cased (which leaves anything
    but a capital letter as it is). *)
Lemma py_title_get (s : string) (i : nat) :
  String.get i (py_title s) =
  option_map (fun c => if word_start s i then to_upper c else to_lower c)
             (String.get i s).
Proof.
  unfold py_title, word_start; rewrite title_from_get.
  destruct (String.get i s); reflexivity.
Qed.

(** ** [sanitize_filename] *)

Lemma re_sub_class_filter (cls : list ascii) (s : string) :
  re_sub_class cls EmptyString s = string_filter (fun c => negb (mem_ascii c cls)) s.
Proof.
  induction s as [| c s IH]; simpl; [reflexivity |].
  destruct (mem_ascii c cls); simpl; rewrite IH; reflexivity.
Qed.

Lemma py_replace_space (s : string) :
  py_replace " " "_" s = string_map (fun c => if Ascii.eqb c " " then "_"%char else c) s.
Proof.
  unfold py_replace.
  induction s as [| c s IH]; [reflexivity |].
  cbn [replace_from string_map].
  change (prefix " " (String c s))
    with (if ascii_dec " " c then prefix EmptyString s else false).
  assert (P : prefix EmptyString s = true) by (destruct s; reflexivity).
  destruct (ascii_dec " " c) as [<- | Hne].
  - rewrite P; cbn; rewrite IH; reflexivity.
  - rewrite IH.
    destruct (Ascii.eqb c " ") eqn:E; [| reflexivity].
    apply Ascii.eqb_eq in E; congruence.
Qed.

Lemma sanitize_filename_spec (name : string) :
  sanitize_filename name = spec_sanitize name.
Proof.
  unfold sanitize_filename, spec_sanitize.
  rewrite re_sub_class_filter, py_replace_space; reflexivity.
Qed.

Lemma string_take_length (n : nat) (s : string) : String.length (string_take n s) <= n.
Proof.
  revert s; induction n as [| n IH]; intros [| c s]; simpl; try lia.
  specialize (IH s); lia.
Qed.

(** ** Shape checks *)

Lemma forall_edges_sound (test : string -> string -> bool) (mapping : list (string * json)) :
  forall_edges test mapping = true ->
  forall k c, child mapping k c -> test k c = true.
Proof.
  unfold forall_edges; intros H k c [Hin Hc].
  rewrite forallb_forall in H.
  destruct (lookup k mapping) as [node |] eqn:E;
    [| unfold children_of in Hin; rewrite E in Hin; contradiction].
  specialize (H (k, node) (lookup_in _ _ _ E)); simpl in H.
  rewrite forallb_forall in H.
  specialize (H (JStr c) Hin); simpl in H.
  destruct (lookup c mapping); [exact H | contradiction].
Qed.

Lemma tree_shapedb_sound (mapping : list (string * json)) :
  tree_shapedb mapping = true -> tree_shaped mapping.
Proof.
  intros H k c Hc.
  apply (forall_edges_sound _ _ H) in Hc.
  unfold same_id in Hc.
  destruct (parent_of mapping c) as [p |]; [| discriminate].
  apply String.eqb_eq in Hc; subst; reflexivity.
Qed.

Lemma children_follow_acyclic (mapping : list (string * json)) :
  children_follow mapping = true -> acyclic mapping.
Proof.
  intros H k Hk.
  assert (R : forall a b, clos_trans string (child mapping) a b ->
                position a (map fst mapping) < position b (map fst mapping)).
  { induction 1 as [a b Hc | a b c _ IH1 _ IH2]; [| lia].
    apply (forall_edges_sound _ _ H) in Hc; apply Nat.ltb_lt in Hc; exact Hc. }
  specialize (R k k Hk); lia.
Qed.

(** ** The export loop *)

Section ExportLoop.
Context {L : PyLib}.

Lemma export_each_cons (fuel : nat) (convo title : json) (filename : string)
    (messages : list string) (rest : list json) (st : state) :
  prepare fuel convo = Ret (title, filename, messages) ->
  export_each fuel (convo :: rest) st =
  export_each fuel rest (emit title filename messages st).
Proof.
  intro E; simpl; unfold export_one; rewrite E; reflexivity.
Qed.

Lemma emit_count (title : json) (filename : string) (messages : list string) (st : state) :
  count st <= count (emit title filename messages st) <= S (count st).
Proof.
  unfold emit; destruct messages as [| b messages]; simpl; [lia |].
  destruct (write_text _ _ _) as [d [e |]]; simpl; lia.
Qed.

Lemma export_each_completes (fuel : nat) (convos : list json) :
  forall st,
    (forall c, In c convos -> exists r, prepare fuel c = Ret r) ->
    exists st', export_each fuel convos st = (st', Ret tt) /\
                count st <= count st' <= count st + List.length convos.
Proof.
  induction convos as [| c convos IH]; intros st H.
  - exists st; split; [reflexivity | simpl; lia].
  - destruct (H c (or_introl eq_refl)) as [[[title filename] messages] E].
    rewrite (export_each_cons _ _ _ _ _ _ _ E).
    destruct (IH (emit title filename messages st)) as (st' & E' & Hc);
      [intros; apply H; right; assumption |].
    exists st'; split; [exact E' |].
    pose proof (emit_count title filename messages st); simpl; lia.
Qed.

Lemma reaches_raise (mapping : list (string * json)) (root : json) (k : string)
    (node : json) (e : exn) :
  reaches mapping root (JStr k) ->
  lookup k mapping = Some node ->
  node_blocks node = Raise e ->
  exists n, forall fuel acc, n < fuel -> walk fuel mapping root acc = Raise e.
Proof.
  intros Hr E Eb.
  remember (JStr k) as target eqn:Et.
  induction Hr as [c | k0 node0 bs c c' E0 Eb0 En0 Hr IH]; subst.
  - exists 0; intros [| fuel] acc Hf; [lia |].
    eapply walk_raise; eassumption.
  - destruct (IH eq_refl) as [n Hn].
    exists (S n); intros [| fuel] acc Hf; [lia |].
    rewrite (walk_step mapping fuel k0 node0 c bs acc E0 Eb0 En0).
    apply Hn; lia.
Qed.

End ExportLoop.

(** * The claims *)

(** C6 (fixed code-fence tag): a structured part whose [content_type] is
    [code] renders as its text inside a fenced block tagged [python],
    whatever the part's [language] field holds and whether or not it has
    one; the part with text [print(1)] renders the same for every value of
    [language]. *)
Theorem code_fence_tag_is_fixed (L : PyLib) :
  (forall (d : list (string * json)) (t : string),
      lookup "content_type" d = Some (JStr "code") ->
      lookup "text" d = Some (JStr t) ->
      format_message_part (JDict d)
      = JStr (nl ++ "```python" ++ nl ++ t ++ nl ++ "```" ++ nl)) /\
  (forall language : json,
      format_message_part
        (JDict [("content_type", JStr "code"); ("language", language);
                ("text", JStr "print(1)")])
      = JStr (nl ++ "```python" ++ nl ++ "print(1)" ++ nl ++ "```" ++ nl)) /\
  format_message_part (JDict [("content_type", JStr "code"); ("text", JStr "print(1)")])
  = JStr (nl ++ "```python" ++ nl ++ "print(1)" ++ nl ++ "```" ++ nl).
Proof.
  split; [| split; [intro language |]; reflexivity].
  intros d t Ec Et; unfold format_message_part.
  rewrite Ec, Et; reflexivity.
Qed.

Lemma code_fence_tag_is_fixed_witness :
  format_message_part (H := sample_lib)
    (JDict [("language", JStr "rust"); ("text", JStr "fn main() {}");
            ("content_type", JStr "code")])
  = JStr (nl ++ "```python" ++ nl ++ "fn main() {}" ++ nl ++ "```" ++ nl).
Proof.
  apply (proj1 (code_fence_tag_is_fixed sample_lib)); reflexivity.
Defined.

(** C5 (block emission filter): a visited node contributes a block exactly
    when it has a message, the message's content is non-empty, the author
    role is not [system] and the concatenation of the rendered parts is not
    blank; it never contributes more than one; a system-authored node and a
    node whose rendered text is only whitespace contribute none; and what a
    visited node contributes is what the loop appends to its output. *)
Theorem block_emission_filter (L : PyLib) (node : json) :
  (forall b, node_blocks node = Ret [b] <-> emits_block node b) /\
  (forall bs, node_blocks node = Ret bs -> bs = [] \/ exists b, bs = [b]) /\
  (forall message_data content,
      py_get node "message" JNull = Ret message_data ->
      truthy message_data = true ->
      py_get message_data "content" JNull = Ret content ->
      truthy content = true ->
      author_role_of message_data = Ret (JStr "system") ->
      node_blocks node = Ret []) /\
  (forall message_data content role text,
      py_get node "message" JNull = Ret message_data ->
      py_get message_data "content" JNull = Ret content ->
      author_role_of message_data = Ret (JStr role) ->
      rendered_text content = Ret text ->
      all_space text = true ->
      node_blocks node = Ret []) /\
  (forall mapping fuel k acc bs,
      lookup k mapping = Some node ->
      node_blocks node = Ret bs ->
      walk (S fuel) mapping (JStr k) acc =
      (next <- next_node node ;;
       match next with
       | Some c => walk fuel mapping c (acc ++ bs)%list
       | None => Ret (acc ++ bs)%list
       end)).
Proof.
  split; [intro b; apply node_blocks_emits |].
  split.
  { intros bs H; apply node_blocks_at_most_one in H.
    destruct bs as [| b [| b' bs]]; [left; reflexivity | right; eauto |].
    simpl in H; lia. }
  split.
  { intros m c Em Tm Ec Tc Er; unfold node_blocks.
    rewrite Em; simpl; rewrite Tm; simpl; rewrite Ec; simpl; rewrite Tc; simpl.
    unfold author_role_of in Er.
    destruct (py_getitem m "author") as [a | |]; simpl in Er; try discriminate.
    simpl; rewrite Er; reflexivity. }
  split.
  { intros m c role text Em Ec Er Et Hb; unfold node_blocks.
    rewrite Em; simpl; destruct (truthy m); simpl; [| reflexivity].
    rewrite Ec; simpl; destruct (truthy c); simpl; [| reflexivity].
    unfold author_role_of in Er.
    destruct (py_getitem m "author") as [a | |]; simpl in Er; try discriminate.
    simpl; rewrite Er; simpl.
    destruct (String.eqb role "system"); [reflexivity |].
    unfold rendered_text in Et.
    destruct (py_get c "parts" (JList [])) as [cp | |]; simpl in Et; try discriminate.
    simpl.
    destruct (py_iter cp) as [ps | |]; simpl in Et; try discriminate.
    simpl; rewrite Et; simpl.
    rewrite strip_blank, Hb; reflexivity. }
  intros mapping fuel k acc bs E Eb.
  simpl; rewrite E; simpl; rewrite Eb; reflexivity.
Qed.

Lemma block_emission_filter_witness :
  node_blocks (H := sample_lib)
    (JDict [("message",
             JDict [("author", JDict [("role", JStr "system")]);
                    ("content", JDict [("parts", JList [JStr "You are helpful."])])])])
  = Ret [].
Proof.
  eapply (proj1 (proj2 (proj2 (block_emission_filter sample_lib _))));
    reflexivity.
Defined.

(** Every block of the output comes from a node of the mapping that
    satisfies the emission conditions. *)
Lemma output_blocks_emitted (L : PyLib) (fuel : nat)
    (convo mapping : list (string * json)) (out : list string) (b : string) :
  lookup "mapping" convo = Some (JDict mapping) ->
  get_conversation_messages fuel (JDict convo) = Ret out ->
  In b out ->
  exists k node, lookup k mapping = Some node /\ emits_block node b.
Proof.
  intros Em H Hb.
  rewrite (get_conversation_messages_mapping fuel convo mapping Em) in H.
  bind_inv H.
  destruct v as [root |]; [| inversion H; subst; contradiction].
  destruct root as [| | | k0 | |];
    try (apply walk_not_string in H; [| intros ? ?; discriminate];
         subst; contradiction).
  apply walk_main_line in H; simpl in H; subst out.
  apply in_flat_map in Hb; destruct Hb as (k & _ & Hb).
  unfold blocks_at in Hb.
  destruct (lookup k mapping) as [node |] eqn:Ek; [| contradiction].
  destruct (node_blocks node) as [bs | |] eqn:Eb; try contradiction.
  exists k, node; split; [exact Ek |].
  apply node_blocks_emits.
  pose proof (node_blocks_at_most_one node bs Eb) as Hlen.
  destruct bs as [| b0 [| b1 bs]]; [contradiction | | simpl in Hlen; lia].
  destruct Hb as [-> | []]; exact Eb.
Qed.

(** C7 (block template): every block of the output is [## Role], a blank
    line, the concatenated parts, a blank line, a rule and a blank line,
    where [Role] is the author role of the node with the first letter of
    each word upper-cased (and every other letter lower-cased, as
    [str.title] does); Scenario A yields the single block
    [## User\n\nHello\n\n---\n\n]. *)
Theorem block_template (L : PyLib) :
  (forall fuel convo mapping out b,
      lookup "mapping" convo = Some (JDict mapping) ->
      get_conversation_messages fuel (JDict convo) = Ret out ->
      In b out ->
      exists k node message_data content role text,
        lookup k mapping = Some node /\
        py_get node "message" JNull = Ret message_data /\
        author_role_of message_data = Ret (JStr role) /\
        py_get message_data "content" JNull = Ret content /\
        rendered_text content = Ret text /\
        b = "## " ++ py_title role ++ nl ++ nl ++ text ++ nl ++ nl ++ "---" ++ nl ++ nl) /\
  (forall role i c,
      String.get i role = Some c ->
      String.get i (py_title role)
      = Some (if word_start role i then to_upper c else to_lower c)) /\
  py_title "user" = "User" /\
  (forall n,
      get_conversation_messages (2 + n) (JDict [("mapping", JDict scenario_A)])
      = Ret ["## User" ++ nl ++ nl ++ "Hello" ++ nl ++ nl ++ "---" ++ nl ++ nl]).
Proof.
  split.
  { intros fuel convo mapping out b Em H Hb.
    destruct (output_blocks_emitted L fuel convo mapping out b Em H Hb)
      as (k & node & E & (m & c & role & text & E1 & _ & E2 & _ & E3 & _ & E4 & _ & E5)).
    exists k, node, m, c, role, text; repeat split; assumption. }
  split.
  { intros role i c E; rewrite py_title_get, E; reflexivity. }
  split; [reflexivity |].
  intro n.
  rewrite (get_conversation_messages_mapping _ _ scenario_A) by reflexivity.
  change (select_root scenario_A) with (@Ret (option json) (Some (JStr "root"))).
  cbn [bind].
  rewrite walk_more_fuel; [reflexivity | discriminate].
Qed.

Lemma block_template_witness :
  String.get 5 (py_title "tool result") = Some "R"%char.
Proof.
  apply (proj1 (proj2 (block_template sample_lib)) "tool result" 5 "r"%char).
  reflexivity.
Defined.

(** C10 (author access is not defensive): a visited node raises [KeyError]
    exactly when its message and the message's content are truthy and the
    message lacks [author] or the author lacks [role]; once the loop gets to
    such a node [get_conversation_messages] raises [KeyError] rather than
    returning a sequence, and the loop of [main] does not catch it. *)
Theorem author_access_not_defensive (L : PyLib) :
  (forall node,
      node_blocks node = Raise KeyError <->
      exists message_data content,
        py_get node "message" JNull = Ret message_data /\
        truthy message_data = true /\
        py_get message_data "content" JNull = Ret content /\
        truthy content = true /\
        lacks_author_role message_data) /\
  (forall convo mapping root k node,
      lookup "mapping" convo = Some (JDict mapping) ->
      select_root mapping = Ret (Some root) ->
      reaches mapping root (JStr k) ->
      lookup k mapping = Some node ->
      node_blocks node = Raise KeyError ->
      exists n, forall fuel, n < fuel ->
        get_conversation_messages fuel (JDict convo) = Raise KeyError) /\
  (forall fuel convo title create_time filename rest st,
      py_get convo "title" JNull = Ret title ->
      py_get convo "create_time" JNull = Ret create_time ->
      output_filename title create_time = Ret filename ->
      get_conversation_messages fuel convo = Raise KeyError ->
      export_each fuel (convo :: rest) st = (st, Raise KeyError)).
Proof.
  split; [intro node; apply node_blocks_key_error |].
  split.
  - intros convo mapping root k node Em Er Hr E Eb.
    destruct (reaches_raise mapping root k node KeyError Hr E Eb) as [n Hn].
    exists n; intros fuel Hf.
    rewrite (get_conversation_messages_mapping fuel convo mapping Em), Er.
    cbn [bind]; apply Hn; exact Hf.
  - intros fuel convo title create_time filename rest st Et Ec Ef Eg.
    simpl; unfold export_one, prepare.
    rewrite Et; simpl; rewrite Ec; simpl; rewrite Ef; simpl; rewrite Eg.
    reflexivity.
Qed.

Lemma author_access_not_defensive_witness :
  exists n, forall fuel, n < fuel ->
    get_conversation_messages (H := sample_lib) fuel
      (JDict [("mapping", JDict anonymous)]) = Raise KeyError.
Proof.
  apply (proj1 (proj2 (author_access_not_defensive sample_lib))
           [("mapping", JDict anonymous)] anonymous (JStr "root") "m1"
           (JDict [("parent", JStr "root"); ("children", JList []);
                   ("message",
                    JDict [("content", JDict [("parts", JList [JStr "Hello"])])])])).
  - reflexivity.
  - reflexivity.
  - eapply reaches_step; [reflexivity | reflexivity | reflexivity | apply reaches_here].
  - reflexivity.
  - reflexivity.
Defined.

(** C3 (root selection): when exactly one node of the mapping has an absent
    or null [parent], that node is the root the function selects and the
    traversal starts at it, in whatever order the items of the mapping are
    iterated. *)
Theorem parentless_node_is_root (L : PyLib) (fuel : nat)
    (convo mapping items : list (string * json)) (k : string) (node : json) :
  lookup "mapping" convo = Some (JDict items) ->
  Permutation mapping items ->
  In (k, node) mapping ->
  parentless node ->
  (forall k' n', In (k', n') mapping -> (k', n') = (k, node) \/ has_parent n') ->
  select_root items = Ret (Some (JStr k)) /\
  get_conversation_messages fuel (JDict convo) = walk fuel items (JStr k) [].
Proof.
  intros Em Hp Hin Hroot Hothers.
  assert (Er : select_root items = Ret (Some (JStr k))).
  { unfold select_root.
    rewrite (find_parentless_only items k node); [reflexivity | | exact Hroot |].
    - eapply Permutation_in; eassumption.
    - intros k' n' H; apply Hothers.
      eapply Permutation_in; [apply Permutation_sym; exact Hp | exact H]. }
  split; [exact Er |].
  rewrite (get_conversation_messages_mapping fuel convo items Em), Er.
  reflexivity.
Qed.

Lemma parentless_node_is_root_witness :
  select_root (H := sample_lib) (rev scenario_A) = Ret (Some (JStr "root")) /\
  get_conversation_messages (H := sample_lib) 3 (JDict [("mapping", JDict (rev scenario_A))])
  = walk (H := sample_lib) 3 (rev scenario_A) (JStr "root") [].
Proof.
  apply (parentless_node_is_root sample_lib 3 [("mapping", JDict (rev scenario_A))]
           scenario_A (rev scenario_A) "root"
           (JDict [("parent", JNull); ("children", JList [JStr "m1"])])).
  - reflexivity.
  - apply Permutation_rev.
  - left; reflexivity.
  - reflexivity.
  - intros k' n' [H | [H | []]]; inversion H; subst.
    + left; reflexivity.
    + right; exists (JStr "root"); split; reflexivity.
Defined.

(** The fallback of lines 59-68 on a mapping of well-formed nodes: either
    no node carries a message, or the id of a message-bearing node with a
    least timestamp is chosen. *)
Lemma fallback_root_earliest (L : PyLib) (mapping : list (string * json)) :
  (forall k n, In (k, n) mapping -> has_parent n) ->
  (forall k n, In (k, n) mapping -> carries_message n = true ->
               timestamp n <> None /\ py_getitem n "id" = Ret (JStr k)) ->
  (filter carries_message (map snd mapping) = [] /\ select_root mapping = Ret None) \/
  (exists k n t,
      In (k, n) mapping /\ carries_message n = true /\ timestamp n = Some t /\
      (forall k' n' t', In (k', n') mapping -> carries_message n' = true ->
                        timestamp n' = Some t' -> (t <= t')%Q) /\
      select_root mapping = Ret (Some (JStr k))).
Proof.
  intros Hpar Hmsg.
  unfold select_root, fallback_root.
  rewrite (find_parentless_none mapping Hpar); cbn [bind].
  rewrite message_nodes_filter.
  2:{ intros n Hn; apply in_map_iff in Hn; destruct Hn as ([k n'] & <- & Hin).
      destruct (Hpar k n' Hin) as (p & Ep & _).
      eapply py_get_dict; exact Ep. }
  cbn [bind].
  assert (Hc : forall n, In n (filter carries_message (map snd mapping)) ->
                 exists k, In (k, n) mapping /\ carries_message n = true).
  { intros n Hn; apply filter_In in Hn; destruct Hn as [Hn Hcm].
    apply in_map_iff in Hn; destruct Hn as ([k n'] & <- & Hin).
    exists k; split; assumption. }
  destruct (with_keys_numeric (filter carries_message (map snd mapping)))
    as (keyed & nk & Ek & En & Emap & Ht).
  { intros n Hn; destruct (Hc n Hn) as (k & Hin & Hcm).
    apply (Hmsg k n Hin Hcm). }
  rewrite Ek; cbn [bind].
  unfold py_sorted; rewrite En; cbn [bind].
  pose proof (sort_by_key_head nk) as Hs.
  destruct (sort_by_key nk) as [| [t n] r].
  - subst nk; simpl in Emap; left; split; [symmetry; exact Emap | reflexivity].
  - destruct Hs as [Hx Hmin]; right.
    assert (Hn : In n (filter carries_message (map snd mapping))).
    { rewrite <- Emap; apply (in_map snd) in Hx; exact Hx. }
    destruct (Hc n Hn) as (k & Hin & Hcm).
    exists k, n, t.
    split; [exact Hin |]. split; [exact Hcm |].
    split; [apply Ht; exact Hx |].
    split.
    + intros k' n' t' Hin' Hcm' Ht'.
      assert (Hn' : In n' (map snd nk)).
      { rewrite Emap; apply filter_In; split; [| exact Hcm'].
        apply in_map_iff; exists (k', n'); split; [reflexivity | exact Hin']. }
      apply in_map_iff in Hn'; destruct Hn' as ([q n''] & Eq & Hq).
      simpl in Eq; subst n''.
      pose proof (Ht q n' Hq) as Eq'.
      rewrite Ht' in Eq'; inversion Eq'; subst q.
      apply (Hmin (t', n') Hq).
    + simpl.
      destruct (Hmsg k n Hin Hcm) as [_ Eid].
      rewrite Eid; reflexivity.
Qed.

(** C1 as stated does not hold: line 66 takes the root from the [id] field
    of the earliest node, not from its key.  In a mapping whose nodes all
    have a non-null [parent] and a message with a timestamp, nodes without
    an [id] field make the function raise [KeyError], and [id] fields that
    are not keys of the mapping make it return the empty sequence: in
    neither case does the traversal start at the earliest node. *)
Lemma fallback_root_needs_id :
  (forall k n, In (k, n) rootless_without_ids ->
               has_parent n /\ carries_message n = true /\ timestamp n <> None) /\
  (forall fuel,
      get_conversation_messages (H := sample_lib) fuel
        (JDict [("mapping", JDict rootless_without_ids)]) = Raise KeyError) /\
  (forall k n, In (k, n) rootless_other_ids ->
               has_parent n /\ carries_message n = true /\ timestamp n <> None) /\
  (forall fuel,
      get_conversation_messages (H := sample_lib) (S fuel)
        (JDict [("mapping", JDict rootless_other_ids)]) = Ret []).
Proof.
  split; [| split; [| split]].
  - intros k n [H | [H | []]]; inversion H; subst;
      (split; [exists (JStr "gone"); split; reflexivity |
               split; [reflexivity | discriminate]]).
  - intro fuel; reflexivity.
  - intros k n [H | [H | []]]; inversion H; subst;
      (split; [exists (JStr "gone"); split; reflexivity |
               split; [reflexivity | discriminate]]).
  - intro fuel; reflexivity.
Qed.

(** C1, amended (fallback root): in a mapping whose nodes all have a
    non-null [parent], whose message-bearing nodes have a numeric
    [create_time] and carry their own mapping key as [id], and whose keys
    are distinct, the root the function selects is a message-bearing node
    with the smallest timestamp and the traversal starts at that node; when
    no node carries a message the result is the empty sequence. *)
Theorem fallback_root_is_earliest (L : PyLib) (fuel : nat)
    (convo mapping : list (string * json)) :
  lookup "mapping" convo = Some (JDict mapping) ->
  NoDup (map fst mapping) ->
  (forall k n, In (k, n) mapping -> has_parent n) ->
  (forall k n, In (k, n) mapping -> carries_message n = true ->
               timestamp n <> None /\ py_getitem n "id" = Ret (JStr k)) ->
  ((forall k n, In (k, n) mapping -> carries_message n = false) ->
   get_conversation_messages fuel (JDict convo) = Ret []) /\
  (forall k0 n0, In (k0, n0) mapping -> carries_message n0 = true ->
   exists k n t,
     lookup k mapping = Some n /\ carries_message n = true /\ timestamp n = Some t /\
     (forall k' n' t', In (k', n') mapping -> carries_message n' = true ->
                       timestamp n' = Some t' -> (t <= t')%Q) /\
     select_root mapping = Ret (Some (JStr k)) /\
     get_conversation_messages fuel (JDict convo) = walk fuel mapping (JStr k) []).
Proof.
  intros Em Hnd Hpar Hmsg.
  rewrite (get_conversation_messages_mapping fuel convo mapping Em).
  destruct (fallback_root_earliest L mapping Hpar Hmsg)
    as [[Hnone Er] | (k & n & t & Hin & Hcm & Ht & Hmin & Er)].
  - split.
    + intros _; rewrite Er; reflexivity.
    + intros k0 n0 Hin Hcm; exfalso.
      assert (H : In n0 (filter carries_message (map snd mapping))).
      { apply filter_In; split; [| exact Hcm].
        apply in_map_iff; exists (k0, n0); split; [reflexivity | exact Hin]. }
      rewrite Hnone in H; exact H.
  - split.
    + intro Hno; rewrite (Hno k n Hin) in Hcm; discriminate.
    + intros _ _ _ _.
      exists k, n, t.
      split; [apply in_lookup; assumption |].
      repeat split; try assumption.
      rewrite Er; reflexivity.
Qed.

Lemma fallback_root_is_earliest_witness :
  exists k n t,
    lookup k rootless = Some n /\ carries_message n = true /\ timestamp n = Some t /\
    (forall k' n' t', In (k', n') rootless -> carries_message n' = true ->
                      timestamp n' = Some t' -> (t <= t')%Q) /\
    select_root (H := sample_lib) rootless = Ret (Some (JStr k)) /\
    get_conversation_messages (H := sample_lib) 3 (JDict [("mapping", JDict rootless)])
    = walk (H := sample_lib) 3 rootless (JStr k) [].
Proof.
  assert (Hpar : forall k n, In (k, n) rootless -> has_parent n).
  { intros k n [H | [H | []]]; inversion H; subst;
      exists (JStr "gone"); split; reflexivity. }
  assert (Hmsg : forall k n, In (k, n) rootless -> carries_message n = true ->
                   timestamp n <> None /\ py_getitem n "id" = Ret (JStr k)).
  { intros k n [H | [H | []]] _; inversion H; subst;
      (split; [discriminate | reflexivity]). }
  assert (Hnd : NoDup (map fst rootless)).
  { repeat constructor; simpl; intuition discriminate. }
  apply (proj2 (fallback_root_is_earliest sample_lib 3 [("mapping", JDict rootless)]
                  rootless eq_refl Hnd Hpar Hmsg)
           "n2" (JDict [("id", JStr "n2"); ("parent", JStr "gone"); ("children", JList []);
                        ("message", user_message "later" 20)])).
  - left; reflexivity.
  - reflexivity.
Defined.

(** C4 (main-line-only traversal): in a tree-shaped mapping whose root has
    the children [a] and [b], the output is the blocks of the nodes on the
    first-child line from the root, in the order of that line, each node of
    the line being the first child of the one before; no node of the
    subtree of [b] is on the line, so none contributes a block. *)
Theorem main_line_only (L : PyLib) (fuel : nat)
    (convo mapping : list (string * json)) (root a b : string) (node : json)
    (out : list string) :
  lookup "mapping" convo = Some (JDict mapping) ->
  select_root mapping = Ret (Some (JStr root)) ->
  lookup root mapping = Some node ->
  parentless node ->
  py_get node "children" (JList []) = Ret (JList [JStr a; JStr b]) ->
  a <> b ->
  tree_shaped mapping ->
  get_conversation_messages fuel (JDict convo) = Ret out ->
  out = flat_map (blocks_at mapping) (main_line fuel mapping root) /\
  first_child_line mapping (main_line fuel mapping root) /\
  (forall x, descendant mapping b x -> ~ In x (main_line fuel mapping root)).
Proof.
  intros Em Er E Hp Ec Hab Htree H.
  rewrite (get_conversation_messages_mapping fuel convo mapping Em), Er in H.
  cbn [bind] in H.
  split; [apply walk_main_line in H; exact H |].
  split; [apply main_line_first_child |].
  eapply side_branch_off_line; eassumption.
Qed.

Lemma main_line_only_witness :
  main_line 5 branching "root" = ["root"; "A"; "A1"] /\
  (forall x, descendant branching "B" x -> ~ In x (main_line 5 branching "root")).
Proof.
  split; [reflexivity |].
  eapply (main_line_only sample_lib 5 [("mapping", JDict branching)] branching
            "root" "A" "B").
  - reflexivity.
  - reflexivity.
  - reflexivity.
  - reflexivity.
  - reflexivity.
  - discriminate.
  - apply tree_shapedb_sound; reflexivity.
  - reflexivity.
Defined.

Lemma walk_self_loop (L : PyLib) (fuel : nat) :
  forall acc, walk fuel self_loop (JStr "a") acc = OutOfFuel.
Proof.
  induction fuel as [| fuel IH]; intro acc; [reflexivity |].
  rewrite (walk_step self_loop fuel "a"
             (JDict [("parent", JNull); ("children", JList [JStr "a"])])
             (JStr "a") [] acc eq_refl eq_refl eq_refl).
  apply IH.
Qed.

(** C9 (termination on well-formed input): when the child pointers of the
    mapping form no cycle the loop ends, within one step more than the
    mapping has nodes, and more fuel does not change its result; it ends at
    an id that is not in the mapping and at a node without children, and in
    between it goes from each node to its first child.  Nothing detects a
    cycle: on a node that is its own child the loop never ends. *)
Theorem traversal_terminates_on_trees (L : PyLib) :
  (forall mapping start acc,
      acyclic mapping ->
      walk (S (List.length mapping)) mapping start acc <> OutOfFuel /\
      forall n, walk (S (List.length mapping) + n) mapping start acc
                = walk (S (List.length mapping)) mapping start acc) /\
  (forall fuel convo mapping root,
      lookup "mapping" convo = Some (JDict mapping) ->
      select_root mapping = Ret root ->
      acyclic mapping ->
      List.length mapping < fuel ->
      get_conversation_messages fuel (JDict convo) <> OutOfFuel) /\
  (forall mapping fuel k acc,
      lookup k mapping = None ->
      walk (S fuel) mapping (JStr k) acc = Ret acc) /\
  (forall mapping fuel k node bs acc,
      lookup k mapping = Some node ->
      node_blocks node = Ret bs ->
      py_get node "children" (JList []) = Ret (JList []) ->
      walk (S fuel) mapping (JStr k) acc = Ret (acc ++ bs)%list) /\
  (forall mapping fuel k, first_child_line mapping (main_line fuel mapping k)) /\
  (forall fuel acc, walk fuel self_loop (JStr "a") acc = OutOfFuel).
Proof.
  split.
  { intros mapping start acc Hac.
    pose proof (walk_terminates_acyclic mapping start acc Hac) as Ht.
    split; [exact Ht |].
    intro n; apply walk_more_fuel; exact Ht. }
  split.
  { intros fuel convo mapping root Em Er Hac Hf.
    rewrite (get_conversation_messages_mapping fuel convo mapping Em), Er.
    cbn [bind].
    destruct root as [root |]; [| discriminate].
    replace fuel with (S (List.length mapping) + (fuel - S (List.length mapping)))
      by lia.
    rewrite walk_more_fuel; apply walk_terminates_acyclic; exact Hac. }
  split; [intros; apply walk_absent; assumption |].
  split.
  { intros mapping fuel k node bs acc E Eb Ec.
    eapply walk_stop; try eassumption.
    unfold next_node; rewrite Ec; reflexivity. }
  split; [intros; apply main_line_first_child |].
  intros fuel acc; apply walk_self_loop.
Qed.

Lemma traversal_terminates_on_trees_witness :
  walk (H := sample_lib) 6 branching (JStr "root") [] <> OutOfFuel /\
  forall n, walk (H := sample_lib) (6 + n) branching (JStr "root") []
            = walk (H := sample_lib) 6 branching (JStr "root") [].
Proof.
  apply (proj1 (traversal_terminates_on_trees sample_lib) branching (JStr "root") []).
  apply children_follow_acyclic; reflexivity.
Defined.

(** C8 (filename policy): a title that is present, not empty and not
    [new chat] in any letter case gives the title with the illegal
    characters stripped, spaces turned into underscores, cut to 100
    characters and followed by [.md]; an absent, null or empty title, and
    every spelling of [new chat] in upper and lower case, gives
    [conversation_] followed by the formatted [create_time] and [.md]. *)
Theorem filename_policy (L : PyLib) (create_time : json) :
  (forall t,
      t <> EmptyString ->
      py_lower t <> "new chat" ->
      output_filename (JStr t) create_time = Ret (spec_sanitize t ++ ".md") /\
      String.length (spec_sanitize t) <= 100) /\
  (forall title q date_str,
      title = JNull \/ title = JStr EmptyString \/
      (exists t, title = JStr t /\ py_lower t = "new chat") ->
      as_number create_time = Some q ->
      strftime_local q = Ret date_str ->
      output_filename title create_time = Ret ("conversation_" ++ date_str ++ ".md")) /\
  (forall mask q date_str,
      as_number create_time = Some q ->
      strftime_local q = Ret date_str ->
      output_filename (JStr (recase mask "New Chat")) create_time
      = Ret ("conversation_" ++ date_str ++ ".md")) /\
  sanitize_filename ("a/b:c?" ++ String dquote "<d e>|*" ++ String backslash EmptyString)
  = "abcd_e".
Proof.
  assert (F : forall q date_str,
             as_number create_time = Some q ->
             strftime_local q = Ret date_str ->
             (date_str <- timestamp_string create_time ;;
              Ret ("conversation_" ++ date_str ++ ".md"))
             = Ret ("conversation_" ++ date_str ++ ".md")).
  { intros q d Eq Ed; unfold timestamp_string; rewrite Eq, Ed; reflexivity. }
  assert (N : forall t q date_str,
             py_lower t = "new chat" ->
             as_number create_time = Some q ->
             strftime_local q = Ret date_str ->
             output_filename (JStr t) create_time
             = Ret ("conversation_" ++ date_str ++ ".md")).
  { intros t q d Et Eq Ed; unfold output_filename.
    destruct (truthy (JStr t)); [| apply (F q d Eq Ed)].
    rewrite Et; apply (F q d Eq Ed). }
  split.
  { intros t Hne Hnc; split; [| apply string_take_length].
    unfold output_filename.
    destruct t as [| c t]; [contradiction Hne; reflexivity |].
    cbn [truthy is_empty negb].
    destruct (String.eqb (py_lower (String c t)) "new chat") eqn:E1.
    { apply String.eqb_eq in E1; contradiction. }
    destruct (String.eqb (py_lower (String c t)) EmptyString) eqn:E2.
    { apply String.eqb_eq in E2; discriminate. }
    cbn [orb negb]; rewrite sanitize_filename_spec; reflexivity. }
  split.
  { intros title q d [-> | [-> | (t & -> & Et)]] Eq Ed.
    - apply (F q d Eq Ed).
    - apply (F q d Eq Ed).
    - apply (N t q d Et Eq Ed). }
  split; [| reflexivity].
  intros mask q d Eq Ed; apply (N _ q d); [| exact Eq | exact Ed].
  rewrite py_lower_recase; reflexivity.
Qed.

Lemma filename_policy_witness :
  output_filename (H := sample_lib) (JStr "Trip: Rome/Paris?") (JNum 0)
  = Ret ("Trip_RomeParis.md") /\
  output_filename (H := sample_lib) (JStr "NEW CHAT") (JNum 0)
  = Ret ("conversation_2023-01-01_00-00-00.md").
Proof.
  split.
  - apply (proj1 (filename_policy sample_lib (JNum 0))); discriminate.
  - exact (proj1 (proj2 (proj2 (filename_policy sample_lib (JNum 0))))
             [true; true; true; true; true; true; true; true] 0%Q
             "2023-01-01_00-00-00" eq_refl eq_refl).
Defined.

(** C2 as stated does not hold: the exception raised while the first record
    is processed is not caught, and the loop never gets to the second. *)
Lemma extraction_failure_aborts_run :
  ~ failures_isolated (H := sample_lib) 3
      [conversation "Broken" anonymous; conversation "Fine" scenario_A]
      (fresh (H := sample_lib) []).
Proof.
  intros [st' H]; vm_compute in H; discriminate.
Qed.

(** C2, amended (failure isolation for writes and empty conversations): in
    an archive whose records all get through filename derivation and
    message extraction, the loop reaches the end of the list whatever the
    writes do; each record is followed by the next; a failed write is
    reported on the console and leaves the success counter as it was; a
    record without messages is reported on the console as skipped and
    leaves the disk and the counter as they were. *)
Theorem write_failures_are_isolated (L : PyLib) (fuel : nat) :
  (forall convos st,
      (forall c, In c convos -> exists r, prepare fuel c = Ret r) ->
      failures_isolated fuel convos st /\
      exists st', export_each fuel convos st = (st', Ret tt) /\
                  count st <= count st' <= count st + List.length convos) /\
  (forall convo title filename messages rest st,
      prepare fuel convo = Ret (title, filename, messages) ->
      export_each fuel (convo :: rest) st
      = export_each fuel rest (emit title filename messages st)) /\
  (forall title filename b messages st d e,
      write_text (disk st) (os_path_join OUTPUT_DIR filename)
                 (document title (b :: messages)) = (d, Some e) ->
      emit title filename (b :: messages) st
      = mk_state d
          (List.app (console st)
             ["Error writing file " ++ os_path_join OUTPUT_DIR filename ++ ": " ++ e])
          (count st)) /\
  (forall title filename st,
      emit title filename [] st
      = mk_state (disk st)
          (List.app (console st)
             ["Skipping conversation (no messages found): "
              ++ py_format (py_or title (JStr "Untitled"))])
          (count st)).
Proof.
  split.
  { intros convos st H.
    destruct (export_each_completes fuel convos st H) as (st' & E & Hc).
    split; [exists st'; exact E | exists st'; split; assumption]. }
  split; [intros; apply export_each_cons; assumption |].
  split.
  { intros title filename b messages st d e E; unfold emit; rewrite E; reflexivity. }
  intros; reflexivity.
Qed.

Lemma write_failures_are_isolated_witness :
  failures_isolated (H := sample_lib) 3
    [conversation "locked" scenario_A; conversation "Fine" scenario_A]
    (fresh (H := sample_lib) []).
Proof.
  apply (proj1 (write_failures_are_isolated sample_lib 3)).
  intros c [<- | [<- | []]]; eexists; reflexivity.
Defined.

(** * Further properties of the code *)

(** ** [sanitize_filename] *)

Lemma string_forall_take (f : ascii -> bool) (n : nat) :
  forall s, string_forall f s = true -> string_forall f (string_take n s) = true.
Proof.
  induction n as [| n IH]; intros [| c s]; simpl; try reflexivity.
  intro H; apply andb_prop in H; destruct H as [Hc Hs].
  rewrite Hc, (IH s Hs); reflexivity.
Qed.

Lemma string_take_all (n : nat) :
  forall s, String.length s <= n -> string_take n s = s.
Proof.
  induction n as [| n IH]; intros [| c s]; simpl; intro H; try reflexivity; [lia |].
  rewrite IH by lia; reflexivity.
Qed.

Lemma sanitized_clean_before_cut (s : string) :
  string_forall clean
    (string_map (fun c => if Ascii.eqb c " " then "_"%char else c)
       (string_filter (fun c => negb (mem_ascii c illegal_chars)) s)) = true.
Proof.
  induction s as [| c s IH]; [reflexivity |].
  cbn [string_filter].
  destruct (mem_ascii c illegal_chars) eqn:Em; cbn [negb]; [exact IH |].
  cbn [string_map string_forall]; rewrite IH, andb_true_r.
  destruct (Ascii.eqb c " ") eqn:Es; [reflexivity |].
  unfold clean; rewrite Em, Es; reflexivity.
Qed.

Lemma clean_fixed (s : string) :
  string_forall clean s = true ->
  string_map (fun c => if Ascii.eqb c " " then "_"%char else c)
    (string_filter (fun c => negb (mem_ascii c illegal_chars)) s) = s.
Proof.
  induction s as [| c s IH]; [reflexivity |].
  cbn [string_forall string_filter].
  intro H; apply andb_prop in H; destruct H as [Hc Hs].
  unfold clean in Hc; apply andb_prop in Hc; destruct Hc as [Hm Hsp].
  rewrite Hm; cbn [string_map].
  apply negb_true_iff in Hsp; rewrite Hsp, (IH Hs); reflexivity.
Qed.

Lemma sanitize_filename_bounds (name : string) :
  String.length (sanitize_filename name) <= 100 /\
  string_forall clean (sanitize_filename name) = true.
Proof.
  rewrite sanitize_filename_spec; unfold spec_sanitize; split.
  - apply string_take_length.
  - apply string_forall_take, sanitized_clean_before_cut.
Qed.

(** X1: the result of [sanitize_filename] has at most 100 characters and
    holds none of the nine illegal characters and no space. *)
Theorem sanitize_filename_safe (name : string) :
  String.length (sanitize_filename name) <= 100 /\
  string_forall clean (sanitize_filename name) = true.
Proof.
  apply sanitize_filename_bounds.
Qed.

(** X2: [sanitize_filename] is idempotent. *)
Theorem sanitize_filename_idempotent (name : string) :
  sanitize_filename (sanitize_filename name) = sanitize_filename name.
Proof.
  destruct (sanitize_filename_bounds name) as [Hlen Hclean].
  rewrite (sanitize_filename_spec (sanitize_filename name)); unfold spec_sanitize.
  rewrite (clean_fixed _ Hclean).
  apply string_take_all; exact Hlen.
Qed.

Lemma output_filename_of_title (L : PyLib) (t : string) (create_time : json) :
  t <> EmptyString ->
  py_lower t <> "new chat" ->
  output_filename (JStr t) create_time = Ret (sanitize_filename t ++ ".md").
Proof.
  intros Hne Hnc; unfold output_filename.
  destruct t as [| c t]; [contradiction Hne; reflexivity |].
  cbn [truthy is_empty negb].
  destruct (String.eqb (py_lower (String c t)) "new chat") eqn:E1.
  { apply String.eqb_eq in E1; contradiction. }
  destruct (String.eqb (py_lower (String c t)) EmptyString) eqn:E2.
  { apply String.eqb_eq in E2; discriminate. }
  reflexivity.
Qed.

(** X3: titles that differ only by illegal characters, or by spaces against
    underscores, get the same sanitized name; and two titles with the same
    sanitized name that are both used for the file name (neither empty nor
    [new chat] in any letter case) get the same file name, whatever their
    [create_time]. *)
Theorem sanitize_filename_collisions (L : PyLib) :
  (forall name,
      sanitize_filename (re_sub_class illegal_chars EmptyString name)
      = sanitize_filename name /\
      sanitize_filename (py_replace " " "_" name) = sanitize_filename name) /\
  (forall t1 t2 create_time1 create_time2,
      sanitize_filename t1 = sanitize_filename t2 ->
      t1 <> EmptyString -> py_lower t1 <> "new chat" ->
      t2 <> EmptyString -> py_lower t2 <> "new chat" ->
      output_filename (JStr t1) create_time1 = output_filename (JStr t2) create_time2).
Proof.
  split.
  - intro name.
    rewrite !sanitize_filename_spec; unfold spec_sanitize.
    rewrite re_sub_class_filter, py_replace_space.
    split; f_equal.
    + f_equal.
      induction name as [| c s IH]; [reflexivity |].
      cbn [string_filter].
      destruct (mem_ascii c illegal_chars) eqn:Em; cbn [negb]; [exact IH |].
      cbn [string_filter]; rewrite Em; cbn [negb]; rewrite IH; reflexivity.
    + induction name as [| c s IH]; [reflexivity |].
      cbn [string_map string_filter].
      destruct (Ascii.eqb c " ") eqn:Es.
      * apply Ascii.eqb_eq in Es; subst c.
        change (mem_ascii "_" illegal_chars) with false.
        change (mem_ascii " " illegal_chars) with false.
        cbn [negb string_map]; rewrite IH; reflexivity.
      * destruct (mem_ascii c illegal_chars); cbn [negb string_map]; rewrite IH;
          [reflexivity |].
        rewrite Es; reflexivity.
  - intros t1 t2 c1 c2 E H1 H1' H2 H2'.
    rewrite (output_filename_of_title L t1 c1 H1 H1').
    rewrite (output_filename_of_title L t2 c2 H2 H2').
    rewrite E; reflexivity.
Qed.

Lemma sanitize_filename_collisions_witness :
  output_filename (H := sample_lib) (JStr "Q&A: part 1?") (JNum 1)
  = output_filename (H := sample_lib) (JStr "Q&A part_1") JNull.
Proof.
  apply (proj2 (sanitize_filename_collisions sample_lib)); try discriminate.
  reflexivity.
Defined.

(** ** The output path *)

Lemma clean_not_slash (s tail : string) :
  string_forall clean s = true ->
  prefix "/" (s ++ String "." tail) = false.
Proof.
  destruct s as [| c s]; [reflexivity |].
  simpl string_forall; intro H; apply andb_prop in H; destruct H as [Hc _].
  change (prefix "/" (String c s ++ String "." tail))
    with (if ascii_dec "/" c then prefix EmptyString (s ++ String "." tail) else false).
  destruct (ascii_dec "/" c) as [<- | Hne]; [discriminate | reflexivity].
Qed.

(** X4: whatever name lines 133-138 produce, it ends in [.md] and the path
    of line 147 is that name directly inside [chatgpt_exports]. *)
Theorem output_path_inside_output_dir (L : PyLib) (title create_time : json)
    (filename : string) :
  output_filename title create_time = Ret filename ->
  os_path_join OUTPUT_DIR filename = "chatgpt_exports/" ++ filename /\
  exists stem, filename = stem ++ ".md".
Proof.
  unfold output_filename; intro H.
  assert (F : (date_str <- timestamp_string create_time ;;
               Ret ("conversation_" ++ date_str ++ ".md")) = Ret filename ->
              os_path_join OUTPUT_DIR filename = "chatgpt_exports/" ++ filename /\
              exists stem, filename = stem ++ ".md").
  { intro E; bind_inv E; inversion E; subst filename.
    split; [reflexivity | exists ("conversation_" ++ v); reflexivity]. }
  destruct (truthy title); [| exact (F H)].
  destruct title as [| | | t | |]; try discriminate.
  destruct (negb _); [| exact (F H)].
  inversion H; subst filename.
  split; [| exists (sanitize_filename t); reflexivity].
  unfold os_path_join.
  rewrite (clean_not_slash _ "md" (proj2 (sanitize_filename_bounds t))).
  reflexivity.
Qed.

Lemma output_path_inside_output_dir_witness :
  os_path_join OUTPUT_DIR "..etcpasswd.md" = "chatgpt_exports/..etcpasswd.md" /\
  exists stem, "..etcpasswd.md" = stem ++ ".md".
Proof.
  apply (output_path_inside_output_dir sample_lib (JStr "../etc/passwd") JNull).
  reflexivity.
Defined.

(** ** Rendering the parts of a message *)

Lemma concat_cons (x : string) (l : list string) :
  String.concat EmptyString (x :: l) = x ++ String.concat EmptyString l.
Proof.
  destruct l; simpl; [rewrite string_app_empty_r |]; reflexivity.
Qed.

Lemma concat_chars (s : string) : String.concat EmptyString (chars_of s) = s.
Proof.
  induction s as [| c s IH]; [reflexivity |].
  cbn [chars_of]; rewrite concat_cons, IH; reflexivity.
Qed.

Lemma py_join_strings (L : PyLib) (l : list string) :
  py_join (map format_message_part (map JStr l)) = Ret (String.concat EmptyString l).
Proof.
  induction l as [| x l IH]; [reflexivity |].
  cbn [map format_message_part py_join]; rewrite IH, concat_cons; reflexivity.
Qed.

Lemma py_join_not_string (items : list json) (x : json) :
  In x items -> is_json_string x = false -> py_join items = Raise TypeError.
Proof.
  induction items as [| y items IH]; intros Hin Hx; [contradiction |].
  destruct y; try reflexivity.
  destruct Hin as [<- | Hin]; [discriminate |].
  simpl; rewrite (IH Hin Hx); reflexivity.
Qed.

(** X5: the text of a message whose parts are plain strings is their
    concatenation; when [parts] is itself a string the loop of line 84 runs
    over its characters and the text is that string; when [parts] is absent
    the text is empty. *)
Theorem plain_parts_concatenate (L : PyLib) (content : list (string * json)) :
  (forall l, lookup "parts" content = Some (JList (map JStr l)) ->
             rendered_text (JDict content) = Ret (String.concat EmptyString l)) /\
  (forall s, lookup "parts" content = Some (JStr s) ->
             rendered_text (JDict content) = Ret s) /\
  (lookup "parts" content = None -> rendered_text (JDict content) = Ret EmptyString).
Proof.
  unfold rendered_text; cbn [py_get bind].
  split; [| split].
  - intros l E; rewrite E; cbn [py_iter bind]; apply py_join_strings.
  - intros s E; rewrite E; cbn [py_iter bind].
    rewrite py_join_strings, concat_chars; reflexivity.
  - intros E; rewrite E; reflexivity.
Qed.

Lemma plain_parts_concatenate_witness :
  rendered_text (H := sample_lib) (JDict [("parts", JList [JStr "Hello, "; JStr "world"])])
  = Ret "Hello, world".
Proof.
  exact (proj1 (plain_parts_concatenate sample_lib
                  [("parts", JList [JStr "Hello, "; JStr "world"])])
           ["Hello, "; "world"] eq_refl).
Defined.

(** X6: a [text] part whose [text] field is present and is not a string
    (null, a number, a list) is passed to [join] as it is, so a visited node
    that would otherwise be rendered raises [TypeError]. *)
Theorem non_string_text_part_raises (L : PyLib) (node message_data content : json)
    (role : string) (parts : list json) (d : list (string * json)) (v : json) :
  py_get node "message" JNull = Ret message_data ->
  truthy message_data = true ->
  py_get message_data "content" JNull = Ret content ->
  truthy content = true ->
  author_role_of message_data = Ret (JStr role) ->
  role <> "system" ->
  py_get content "parts" (JList []) = Ret (JList parts) ->
  In (JDict d) parts ->
  lookup "content_type" d = Some (JStr "text") ->
  lookup "text" d = Some v ->
  is_json_string v = false ->
  node_blocks node = Raise TypeError.
Proof.
  intros Em Tm Ec Tc Er Hr Ep Hin Ect Et Hv.
  unfold node_blocks.
  rewrite Em; cbn [bind]; rewrite Tm; cbn [negb].
  rewrite Ec; cbn [bind]; rewrite Tc; cbn [negb].
  unfold author_role_of in Er.
  destruct (py_getitem message_data "author") as [a | |]; simpl in Er;
    try discriminate.
  cbn [bind]; rewrite Er; cbn [bind is_str].
  destruct (String.eqb role "system") eqn:Es;
    [apply String.eqb_eq in Es; contradiction |].
  cbn [title_method bind]; rewrite Ep; cbn [py_iter bind].
  rewrite (py_join_not_string (map format_message_part parts) v); [reflexivity | | exact Hv].
  apply in_map_iff; exists (JDict d); split; [| exact Hin].
  unfold format_message_part; rewrite Ect, Et.
  reflexivity.
Qed.

Lemma non_string_text_part_raises_witness :
  node_blocks (H := sample_lib)
    (JDict [("message",
             JDict [("author", JDict [("role", JStr "assistant")]);
                    ("content",
                     JDict [("parts",
                             JList [JStr "see ";
                                    JDict [("content_type", JStr "text");
                                           ("text", JNull)]])])])])
  = Raise TypeError.
Proof.
  eapply (non_string_text_part_raises sample_lib _ _ _ "assistant" _
            [("content_type", JStr "text"); ("text", JNull)] JNull);
    try reflexivity.
  - discriminate.
  - right; left; reflexivity.
Defined.

(** ** Degenerate conversation records *)

(** X7: a falsy record (null, an empty object) and an object without
    [mapping], or with an empty [mapping], give the empty sequence without
    any traversal; a [mapping] that is not an object raises
    [AttributeError]. *)
Theorem conversation_without_nodes (L : PyLib) (fuel : nat) :
  (forall convo, truthy convo = false ->
                 get_conversation_messages fuel convo = Ret []) /\
  (forall d, lookup "mapping" d = None ->
             get_conversation_messages fuel (JDict d) = Ret []) /\
  (forall d, lookup "mapping" d = Some (JDict []) ->
             get_conversation_messages fuel (JDict d) = Ret []) /\
  (forall d m, lookup "mapping" d = Some m -> is_json_dict m = false ->
               get_conversation_messages fuel (JDict d) = Raise AttributeError).
Proof.
  split; [| split; [| split]].
  - intros convo E; unfold get_conversation_messages; rewrite E; reflexivity.
  - intros d E; unfold get_conversation_messages.
    destruct (truthy (JDict d)); [| reflexivity].
    cbn [negb py_contains bind]; rewrite E; reflexivity.
  - intros d E.
    rewrite (get_conversation_messages_mapping fuel d [] E); reflexivity.
  - intros d m E Hm; unfold get_conversation_messages.
    destruct d as [| kv d]; [discriminate |].
    cbn [truthy negb py_contains py_getitem bind]; rewrite E.
    cbn [negb bind]; destruct m; try reflexivity; discriminate.
Qed.

Lemma conversation_without_nodes_witness :
  get_conversation_messages (H := sample_lib) 0
    (JDict [("title", JStr "Empty"); ("mapping", JList [])])
  = Raise AttributeError.
Proof.
  apply (proj2 (proj2 (proj2 (conversation_without_nodes sample_lib 0)))
           _ (JList [])); reflexivity.
Defined.

(** ** More on root selection *)

Lemma find_parentless_app (pre rest : list (string * json)) :
  (forall k n, In (k, n) pre -> has_parent n) ->
  find_parentless (pre ++ rest) = find_parentless rest.
Proof.
  induction pre as [| [k n] pre IH]; intro H; [reflexivity |].
  destruct (H k n (or_introl eq_refl)) as (p & Ep & Hp).
  cbn [app find_parentless]; rewrite Ep; cbn [bind]; rewrite Hp.
  apply IH; intros k' n' Hin; eapply H; right; exact Hin.
Qed.

(** X8: the scan of lines 53-56 stops at the first node without a parent:
    with several such nodes the first in iteration order is the root, and
    nothing after it is looked at; an entry that is not an object and comes
    before any root raises [AttributeError]. *)
Theorem first_parentless_node_wins (L : PyLib) (pre post : list (string * json))
    (k : string) (node : json) :
  (forall k' n', In (k', n') pre -> has_parent n') ->
  (parentless node ->
   select_root (pre ++ (k, node) :: post) = Ret (Some (JStr k))) /\
  (is_json_dict node = false ->
   select_root (pre ++ (k, node) :: post) = Raise AttributeError).
Proof.
  intro Hpre; unfold select_root; rewrite (find_parentless_app pre _ Hpre).
  split.
  - intro Hn; cbn [find_parentless]; rewrite Hn; reflexivity.
  - intro Hn; destruct node; try reflexivity; discriminate.
Qed.

Lemma first_parentless_node_wins_witness :
  select_root (H := sample_lib)
    ([("n1", JDict [("parent", JStr "gone")])]
     ++ ("r1", JDict [("children", JList [])])
     :: [("r2", JDict [("parent", JNull)]); ("junk", JNum 1)])
  = Ret (Some (JStr "r1")).
Proof.
  assert (Hpre : forall k' n',
             In (k', n') [("n1", JDict [("parent", JStr "gone")])] -> has_parent n').
  { intros k' n' [H | []]; inversion H; subst.
    exists (JStr "gone"); split; reflexivity. }
  apply (proj1 (first_parentless_node_wins sample_lib
                  [("n1", JDict [("parent", JStr "gone")])]
                  [("r2", JDict [("parent", JNull)]); ("junk", JNum 1)]
                  "r1" (JDict [("children", JList [])]) Hpre)).
  reflexivity.
Defined.

Lemma sort_by_key_first_least (before after : list (Q * json)) (x : Q * json) :
  (forall y, In y before -> (fst x < fst y)%Q) ->
  (forall y, In y after -> (fst x <= fst y)%Q) ->
  exists r, sort_by_key (before ++ x :: after) = x :: r.
Proof.
  intros Hb Ha.
  induction before as [| a before IH].
  - cbn [app sort_by_key fold_right].
    pose proof (sort_by_key_head after) as Hs.
    unfold sort_by_key in Hs.
    destruct (fold_right insert_by_key [] after) as [| y r]; [exists []; reflexivity |].
    destruct Hs as [Hy _].
    cbn [insert_by_key].
    rewrite (proj2 (Qle_bool_iff _ _) (Ha y Hy)).
    eexists; reflexivity.
  - destruct IH as [r Er]; [intros y Hy; apply Hb; right; exact Hy |].
    unfold sort_by_key in Er |- *.
    cbn [app fold_right]; rewrite Er; cbn [insert_by_key].
    destruct (Qle_bool (fst a) (fst x)) eqn:E.
    + apply Qle_bool_iff in E.
      exfalso; apply (Qlt_not_le _ _ (Hb a (or_introl eq_refl))); exact E.
    + eexists; reflexivity.
Qed.

(** X9: in the fallback of lines 59-68, among the message-bearing nodes
    with the least timestamp the first in iteration order is chosen:
    [sorted] is stable.  The root is that node's [id] field, whatever it
    holds. *)
Theorem fallback_prefers_first_of_equals (L : PyLib)
    (pre post : list (string * json)) (k : string) (node : json) (t : Q) (rid : json) :
  (forall k' n', In (k', n') (pre ++ (k, node) :: post) -> has_parent n') ->
  (forall k' n', In (k', n') (pre ++ (k, node) :: post) ->
                 carries_message n' = true -> timestamp n' <> None) ->
  carries_message node = true ->
  timestamp node = Some t ->
  py_getitem node "id" = Ret rid ->
  (forall k' n' t', In (k', n') pre -> carries_message n' = true ->
                    timestamp n' = Some t' -> (t < t')%Q) ->
  (forall k' n' t', In (k', n') post -> carries_message n' = true ->
                    timestamp n' = Some t' -> (t <= t')%Q) ->
  select_root (pre ++ (k, node) :: post) = Ret (Some rid).
Proof.
  intros Hpar Hnum Hcm Ht Eid Hpre Hpost.
  unfold select_root, fallback_root.
  rewrite (find_parentless_none _ Hpar); cbn [bind].
  rewrite message_nodes_filter.
  2:{ intros n Hn; apply in_map_iff in Hn; destruct Hn as ([k' n'] & <- & Hin).
      destruct (Hpar k' n' Hin) as (p & Ep & _).
      eapply py_get_dict; exact Ep. }
  cbn [bind].
  rewrite map_app, filter_app; cbn [map filter snd]; rewrite Hcm.
  set (A := filter carries_message (map snd pre)).
  set (B := filter carries_message (map snd post)).
  assert (HA : forall n, In n A -> exists k', In (k', n) pre /\ carries_message n = true).
  { intros n Hn; apply filter_In in Hn; destruct Hn as [Hn Hc].
    apply in_map_iff in Hn; destruct Hn as ([k' n'] & <- & Hin); eauto. }
  assert (HB : forall n, In n B -> exists k', In (k', n) post /\ carries_message n = true).
  { intros n Hn; apply filter_In in Hn; destruct Hn as [Hn Hc].
    apply in_map_iff in Hn; destruct Hn as ([k' n'] & <- & Hin); eauto. }
  destruct (with_keys_numeric (A ++ node :: B)) as (keyed & nk & Ek & En & Emap & Hts).
  { intros n Hn; apply in_app_or in Hn; destruct Hn as [Hn | [<- | Hn]].
    - destruct (HA n Hn) as (k' & Hin & Hc).
      apply (Hnum k' n); [apply in_or_app; left; exact Hin | exact Hc].
    - rewrite Ht; discriminate.
    - destruct (HB n Hn) as (k' & Hin & Hc).
      apply (Hnum k' n); [apply in_or_app; right; right; exact Hin | exact Hc]. }
  rewrite Ek; cbn [bind].
  unfold py_sorted; rewrite En; cbn [bind].
  apply map_eq_app in Emap; destruct Emap as (nk1 & nk2' & -> & E1 & E2).
  apply map_eq_cons in E2; destruct E2 as ([q0 n0] & nk2 & -> & E0 & E2).
  simpl in E0; subst n0.
  assert (q0 = t).
  { pose proof (Hts q0 node) as H.
    rewrite Ht in H; symmetry.
    assert (E : Some t = Some q0)
      by (apply H; apply in_or_app; right; left; reflexivity).
    inversion E; reflexivity. }
  subst q0.
  destruct (sort_by_key_first_least nk1 nk2 (t, node)) as [r Er].
  - intros [q n] Hy; cbn [fst].
    assert (Hn : In n A) by (rewrite <- E1; apply (in_map snd) in Hy; exact Hy).
    destruct (HA n Hn) as (k' & Hin & Hc).
    apply (Hpre k' n q Hin Hc).
    apply Hts; apply in_or_app; left; exact Hy.
  - intros [q n] Hy; cbn [fst].
    assert (Hn : In n B) by (rewrite <- E2; apply (in_map snd) in Hy; exact Hy).
    destruct (HB n Hn) as (k' & Hin & Hc).
    apply (Hpost k' n q Hin Hc).
    apply Hts; apply in_or_app; right; right; exact Hy.
  - rewrite Er; cbn [map snd]; rewrite Eid; reflexivity.
Qed.

Lemma fallback_prefers_first_of_equals_witness :
  select_root (H := sample_lib)
    ([] ++ ("x", JDict [("id", JStr "x"); ("parent", JStr "gone");
                        ("message", user_message "one" 5)])
        :: [("y", JDict [("id", JStr "y"); ("parent", JStr "gone");
                         ("message", user_message "two" 5)])])
  = Ret (Some (JStr "x")).
Proof.
  apply (fallback_prefers_first_of_equals sample_lib [] _ "x" _ 5%Q (JStr "x")).
  - intros k' n' [H | [H | []]]; inversion H; subst;
      exists (JStr "gone"); split; reflexivity.
  - intros k' n' [H | [H | []]] _; inversion H; subst; discriminate.
  - reflexivity.
  - reflexivity.
  - reflexivity.
  - intros k' n' t' [].
  - intros k' n' t' [H | []] _ Ht; inversion H; subst.
    inversion Ht; subst; apply Qle_refl.
Defined.

(** ** A traversal that returns has visited no node twice *)

Section Revisit.
Context {L : PyLib}.
Variable mapping : list (string * json).

Lemma main_line_stable (fuel : nat) :
  forall (k : string) (acc out : list string) (n : nat),
    walk fuel mapping (JStr k) acc = Ret out ->
    main_line (fuel + n) mapping k = main_line fuel mapping k.
Proof.
  induction fuel as [| fuel IH]; intros k acc out n H; [discriminate |].
  cbn [Nat.add main_line]; cbn [walk key_in node_at] in H.
  destruct (lookup k mapping) as [node |]; [| reflexivity].
  cbn [bind negb] in H.
  bind_inv H. bind_inv H.
  rewrite E0.
  destruct v0 as [[| | | c | |] |]; try reflexivity.
  f_equal; eapply IH; exact H.
Qed.

Lemma main_line_prefix (fuel : nat) :
  forall (k : string) (n : nat),
    exists rest, main_line (fuel + n) mapping k = (main_line fuel mapping k ++ rest)%list.
Proof.
  induction fuel as [| fuel IH]; intros k n; [eexists; reflexivity |].
  cbn [Nat.add main_line].
  destruct (lookup k mapping) as [node |]; [| exists []; reflexivity].
  destruct (next_node node) as [[[| | | c | |] |] | |];
    try (exists []; rewrite app_nil_r; reflexivity).
  destruct (IH c n) as [rest Er]; exists rest; rewrite Er; reflexivity.
Qed.

(** When the loop passes through [k] on its way from [c], what is left of
    the line is the line from [k], and the loop returns from there as
    well. *)
Lemma main_line_split (fuel : nat) :
  forall (c k : string) (acc out : list string),
    walk fuel mapping (JStr c) acc = Ret out ->
    In k (main_line fuel mapping c) ->
    exists pre fuel' acc',
      main_line fuel mapping c = (pre ++ main_line (S fuel') mapping k)%list /\
      S fuel' <= fuel /\
      walk (S fuel') mapping (JStr k) acc' = Ret out.
Proof.
  induction fuel as [| fuel IH]; intros c k acc out H Hin; [discriminate |].
  pose proof H as H0.
  cbn [main_line] in Hin |- *; cbn [walk key_in node_at] in H.
  destruct (lookup c mapping) as [node |] eqn:Ec; [| contradiction].
  cbn [bind negb] in H.
  bind_inv H. bind_inv H.
  destruct Hin as [<- | Hin].
  - exists [], fuel, acc; split; [| split; [lia | exact H0]].
    cbn [app main_line]; rewrite Ec; reflexivity.
  - rewrite E0 in Hin |- *.
    destruct v0 as [[| | | c2 | |] |]; try contradiction.
    destruct (IH c2 k _ out H Hin) as (pre & fuel' & acc' & Em & Hf & Hw).
    exists (c :: pre), fuel', acc'; split; [| split; [lia | exact Hw]].
    rewrite Em; reflexivity.
Qed.

Lemma walk_returns_once (fuel : nat) :
  forall (k : string) (acc out : list string),
    walk fuel mapping (JStr k) acc = Ret out ->
    NoDup (main_line fuel mapping k).
Proof.
  induction fuel as [| fuel IH]; intros k acc out H; [discriminate |].
  cbn [main_line]; cbn [walk key_in node_at] in H.
  destruct (lookup k mapping) as [node |] eqn:Ek; [| constructor].
  cbn [bind negb] in H.
  bind_inv H. bind_inv H.
  rewrite E0.
  destruct v0 as [[| | | c | |] |]; try (repeat constructor; intros []).
  constructor; [| eapply IH; exact H].
  intro Hin.
  destruct (main_line_split fuel c k _ out H Hin) as (pre & fuel' & acc' & Em & Hf & Hw).
  cbn [main_line] in Em; rewrite Ek, E0 in Em.
  cbn [walk key_in node_at] in Hw; rewrite Ek in Hw.
  cbn [bind negb] in Hw; rewrite E, E0 in Hw; cbn [bind] in Hw.
  pose proof (main_line_stable fuel' c _ out (fuel - fuel') Hw) as Es.
  replace (fuel' + (fuel - fuel')) with fuel in Es by lia.
  rewrite <- Es in Em.
  apply (f_equal (@List.length string)) in Em.
  rewrite length_app in Em; cbn [List.length] in Em; lia.
Qed.

Lemma walk_returns_once_any_fuel (fuel fuel0 : nat) (k : string) (acc out : list string) :
  walk fuel mapping (JStr k) acc = Ret out ->
  NoDup (main_line fuel0 mapping k).
Proof.
  intro H; pose proof (walk_returns_once fuel k acc out H) as Hnd.
  destruct (Nat.le_ge_cases fuel0 fuel) as [Hle | Hge].
  - destruct (main_line_prefix fuel0 k (fuel - fuel0)) as [rest Er].
    replace (fuel0 + (fuel - fuel0)) with fuel in Er by lia.
    rewrite Er in Hnd; eapply NoDup_app_remove_r; exact Hnd.
  - pose proof (main_line_stable fuel k acc out (fuel0 - fuel) H) as Es.
    replace (fuel + (fuel0 - fuel)) with fuel0 in Es by lia.
    rewrite Es; exact Hnd.
Qed.

Lemma flat_map_at_most_one (l : list string) :
  List.length (flat_map (blocks_at mapping) l) <= List.length l.
Proof.
  induction l as [| k l IH]; [reflexivity |].
  cbn [flat_map]; rewrite length_app; cbn [List.length].
  assert (List.length (blocks_at mapping k) <= 1); [| lia].
  unfold blocks_at.
  destruct (lookup k mapping) as [node |]; [| simpl; lia].
  destruct (node_blocks node) as [bs | |] eqn:Eb; try (simpl; lia).
  eapply node_blocks_at_most_one; exact Eb.
Qed.

End Revisit.

(** X10: whenever [get_conversation_messages] returns, the loop has visited
    no node twice, and the result has at most as many blocks as the mapping
    has nodes. *)
Theorem returned_traversal_visits_once (L : PyLib) (fuel : nat)
    (convo mapping : list (string * json)) (out : list string) :
  lookup "mapping" convo = Some (JDict mapping) ->
  get_conversation_messages fuel (JDict convo) = Ret out ->
  List.length out <= List.length mapping /\
  (forall k, select_root mapping = Ret (Some (JStr k)) ->
             NoDup (main_line fuel mapping k) /\
             out = flat_map (blocks_at mapping) (main_line fuel mapping k)).
Proof.
  intros Em H.
  rewrite (get_conversation_messages_mapping fuel convo mapping Em) in H.
  bind_inv H.
  assert (Hk : forall k, v = Some (JStr k) ->
                 NoDup (main_line fuel mapping k) /\
                 out = flat_map (blocks_at mapping) (main_line fuel mapping k)).
  { intros k ->; split; [eapply walk_returns_once; exact H |].
    apply walk_main_line in H; exact H. }
  split; [| intros k Ek; apply Hk; congruence].
  destruct v as [root |]; [| inversion H; simpl; lia].
  destruct root as [| | | k | |];
    try (apply walk_not_string in H; [| intros ? ?; discriminate];
         subst out; simpl; lia).
  destruct (Hk k eq_refl) as [Hnd ->].
  etransitivity; [apply flat_map_at_most_one |].
  rewrite <- (length_map fst mapping).
  apply NoDup_incl_length; [exact Hnd |].
  intros x Hx; apply lookup_in_keys.
  eapply linked_keys; [apply main_line_linked | exact Hx].
Qed.

Lemma returned_traversal_visits_once_witness :
  List.length ["## User" ++ nl ++ nl ++ "Hello" ++ nl ++ nl ++ "---" ++ nl ++ nl]
  <= List.length scenario_A.
Proof.
  apply (returned_traversal_visits_once sample_lib 4
           [("mapping", JDict scenario_A)] scenario_A); reflexivity.
Defined.

(** X11: nothing guards the loop against a cycle: when the first-child line
    from a node comes back to a node it has already visited, the loop never
    returns from there, whatever the fuel. *)
Theorem revisiting_line_never_returns (L : PyLib) (mapping : list (string * json))
    (k : string) (fuel0 : nat) :
  ~ NoDup (main_line fuel0 mapping k) ->
  forall fuel acc out, walk fuel mapping (JStr k) acc <> Ret out.
Proof.
  intros Hdup fuel acc out H; apply Hdup.
  eapply walk_returns_once_any_fuel; exact H.
Qed.

Lemma revisiting_line_never_returns_witness :
  walk (H := sample_lib) 50
    [("a", JDict [("children", JList [JStr "b"])]);
     ("b", JDict [("parent", JStr "a"); ("children", JList [JStr "a"])])]
    (JStr "a") [] <> Ret [].
Proof.
  apply (revisiting_line_never_returns sample_lib _ "a" 3).
  intro H; inversion H as [| x l Hin _]; subst.
  apply Hin; right; left; reflexivity.
Defined.

(** ** More on the export loop *)

Lemma prefix_app (s p : string) : prefix s (s ++ p) = true.
Proof.
  induction s as [| a s IH]; [destruct p; reflexivity |].
  change (prefix (String a s) (String a s ++ p))
    with (if ascii_dec a a then prefix s (s ++ p) else false).
  destruct (ascii_dec a a); [exact IH | contradiction].
Qed.

Section Loop.
Context {L : PyLib}.

Lemma export_each_app (fuel : nat) (l1 l2 : list json) :
  forall st,
    export_each fuel (l1 ++ l2) st =
    match export_each fuel l1 st with
    | (st1, Ret _) => export_each fuel l2 st1
    | stopped => stopped
    end.
Proof.
  induction l1 as [| c l1 IH]; intro st; [reflexivity |].
  cbn [app export_each].
  destruct (export_one fuel c st) as [st1 [[] | e |]]; [apply IH | |]; reflexivity.
Qed.

(** What one record adds to the console and to the counter. *)
Lemma emit_reports (title : json) (filename : string) (messages : list string)
    (st : state) :
  exists line,
    console (emit title filename messages st) = (console st ++ [line])%list /\
    count (emit title filename messages st)
    = count st + List.length (saved_lines [line]).
Proof.
  unfold emit; destruct messages as [| b messages].
  - eexists; split; [reflexivity |]; cbn; lia.
  - destruct (write_text _ _ _) as [d [e |]]; cbn [console count].
    + eexists; split; [reflexivity |]; cbn; lia.
    + eexists; split; [reflexivity |].
      unfold saved_lines; cbn [filter]; rewrite prefix_app; cbn; lia.
Qed.

Lemma saved_lines_app (l1 l2 : list string) :
  saved_lines (l1 ++ l2) = (saved_lines l1 ++ saved_lines l2)%list.
Proof.
  apply filter_app.
Qed.

Lemma export_each_reports (fuel : nat) (convos : list json) :
  forall st st',
    export_each fuel convos st = (st', Ret tt) ->
    exists new,
      console st' = (console st ++ new)%list /\
      List.length new = List.length convos /\
      count st' = count st + List.length (saved_lines new).
Proof.
  induction convos as [| c convos IH]; intros st st' H.
  - inversion H; subst; exists []; rewrite app_nil_r; cbn; repeat split; lia.
  - cbn [export_each] in H; unfold export_one in H.
    destruct (prepare fuel c) as [[[title filename] messages] | e |];
      try discriminate.
    destruct (emit_reports title filename messages st) as (line & Ec & En).
    destruct (IH _ _ H) as (new & Ec' & Hl & En').
    exists (line :: new); split; [| split].
    + rewrite Ec', Ec, <- app_assoc; reflexivity.
    + cbn [List.length]; rewrite Hl; reflexivity.
    + change (line :: new) with ([line] ++ new)%list.
      rewrite saved_lines_app, length_app; lia.
Qed.

End Loop.

(** X12: an exception in one record stops the loop there: the records
    before it have been exported and stay so, the records after it are not
    looked at, and no summary line is printed. *)
Theorem abort_keeps_earlier_work (L : PyLib) (fuel : nat)
    (pre post : list json) (convo : json) (st st1 : state) (e : exn) :
  export_each fuel pre st = (st1, Ret tt) ->
  prepare fuel convo = Raise e ->
  export_each fuel (pre ++ convo :: post) st = (st1, Raise e) /\
  export_all fuel (JList (pre ++ convo :: post)) st = (st1, Raise e).
Proof.
  intros Hpre He.
  assert (E : export_each fuel (pre ++ convo :: post) st = (st1, Raise e)).
  { rewrite export_each_app, Hpre.
    cbn [export_each]; unfold export_one; rewrite He; reflexivity. }
  split; [exact E |].
  unfold export_all; cbn [py_iter]; rewrite E; reflexivity.
Qed.

Lemma abort_keeps_earlier_work_witness :
  export_all (H := sample_lib) 3
    (JList ([conversation "Fine" scenario_A]
            ++ conversation "Broken" anonymous :: [conversation "Late" scenario_A]))
    (fresh (H := sample_lib) [])
  = (mk_state (H := sample_lib)
       [("chatgpt_exports/Fine.md",
         "# Fine" ++ nl ++ nl ++ "## User" ++ nl ++ nl ++ "Hello" ++ nl ++ nl
         ++ "---" ++ nl ++ nl)]
       ["Successfully saved: chatgpt_exports/Fine.md"] 1,
     Raise KeyError).
Proof.
  apply (abort_keeps_earlier_work sample_lib 3 [conversation "Fine" scenario_A]
           [conversation "Late" scenario_A] (conversation "Broken" anonymous));
    reflexivity.
Defined.

(** What a completed run of the loop leaves on the console. *)
Lemma export_all_reports (L : PyLib) (fuel : nat) (convos : list json)
    (st st' : state) :
  export_all fuel (JList convos) st = (st', Ret tt) ->
  exists new,
    List.length new = List.length convos /\
    count st' = count st + List.length (saved_lines new) /\
    console st'
    = List.app (console st)
        (List.app new
           [nl ++ "Processing complete. Successfully exported "
            ++ string_of_nat (count st + List.length (saved_lines new))
            ++ " conversations."]).
Proof.
  unfold export_all; cbn [py_iter]; intro H.
  destruct (export_each fuel convos st) as [st1 [[] | e |]] eqn:E; try discriminate.
  inversion H; subst st'; clear H.
  destruct (export_each_reports fuel convos st st1 E) as (new & Ec & Hl & En).
  exists new; split; [exact Hl |]; split; [exact En |].
  cbn [print console]; rewrite Ec, En, <- app_assoc; reflexivity.
Qed.

(** X13: a run of the loop that gets to the end prints one report line per
    record and then the summary, and the number in the summary is the
    counter's start plus the number of [Successfully saved] lines. *)
Theorem summary_counts_saved_lines (L : PyLib) (fuel : nat) (convos : list json)
    (st st' : state) :
  export_all fuel (JList convos) st = (st', Ret tt) ->
  exists new,
    List.length new = List.length convos /\
    count st' = count st + List.length (saved_lines new) /\
    console st'
    = List.app (console st)
        (List.app new
           [nl ++ "Processing complete. Successfully exported "
            ++ string_of_nat (count st + List.length (saved_lines new))
            ++ " conversations."]).
Proof.
  apply export_all_reports.
Qed.

Lemma summary_counts_saved_lines_witness :
  exists new,
    List.length new = 3 /\
    1 = 0 + List.length (saved_lines new) /\
    ["Error writing file chatgpt_exports/locked.md: Permission denied";
     "Skipping conversation (no messages found): Empty";
     "Successfully saved: chatgpt_exports/Fine.md";
     nl ++ "Processing complete. Successfully exported 1 conversations."]
    = List.app []
        (List.app new
           [nl ++ "Processing complete. Successfully exported "
            ++ string_of_nat (0 + List.length (saved_lines new))
            ++ " conversations."]).
Proof.
  apply (summary_counts_saved_lines sample_lib 3
           [conversation "locked" scenario_A; conversation "Empty" [];
            conversation "Fine" scenario_A]
           (fresh (H := sample_lib) [])
           (mk_state (H := sample_lib)
              [("chatgpt_exports/Fine.md",
                "# Fine" ++ nl ++ nl ++ "## User" ++ nl ++ nl ++ "Hello" ++ nl ++ nl
                ++ "---" ++ nl ++ nl)]
              ["Error writing file chatgpt_exports/locked.md: Permission denied";
               "Skipping conversation (no messages found): Empty";
               "Successfully saved: chatgpt_exports/Fine.md";
               nl ++ "Processing complete. Successfully exported 1 conversations."]
              1)).
  reflexivity.
Defined.

(** X14: the file name is derived before the messages are extracted, so a
    record whose title is absent, null, empty or [new chat] and whose
    [create_time] is not a number stops the run with [TypeError], even when
    it has no messages and would have been skipped. *)
Theorem untitled_record_needs_timestamp (L : PyLib) (fuel : nat)
    (d : list (string * json)) (title create_time : json) (rest : list json)
    (st : state) :
  py_get (JDict d) "title" JNull = Ret title ->
  py_get (JDict d) "create_time" JNull = Ret create_time ->
  truthy title = false \/ (exists t, title = JStr t /\ py_lower t = "new chat") ->
  as_number create_time = None ->
  export_each fuel (JDict d :: rest) st = (st, Raise TypeError).
Proof.
  intros Et Ec Ht Hn.
  cbn [export_each]; unfold export_one, prepare.
  rewrite Et; cbn [bind]; rewrite Ec; cbn [bind].
  assert (E : output_filename title create_time = Raise TypeError).
  { unfold output_filename, timestamp_string; rewrite Hn; cbn [bind].
    destruct Ht as [Hf | (t & -> & Hl)].
    - rewrite Hf; reflexivity.
    - destruct (truthy (JStr t)); [| reflexivity].
      rewrite Hl; reflexivity. }
  rewrite E; reflexivity.
Qed.

Lemma untitled_record_needs_timestamp_witness :
  export_each (H := sample_lib) 3
    [JDict [("title", JStr "New chat"); ("create_time", JNull)];
     conversation "Fine" scenario_A]
    (fresh (H := sample_lib) [])
  = (fresh (H := sample_lib) [], Raise TypeError).
Proof.
  apply (untitled_record_needs_timestamp sample_lib 3
           [("title", JStr "New chat"); ("create_time", JNull)]
           (JStr "New chat") JNull).
  - reflexivity.
  - reflexivity.
  - right; exists "New chat"; split; reflexivity.
  - reflexivity.
Defined.

(** X15: the archive has to be a list of objects: an element that is not
    an object stops the run with [AttributeError] at [convo.get], a
    non-empty object or string in place of the list does the same at its
    first key or character, and null, a number or a boolean in place of the
    list raises [TypeError]. *)
Theorem archive_must_be_list_of_objects (L : PyLib) (fuel : nat) (st : state) :
  (forall convo rest, is_json_dict convo = false ->
      export_each fuel (convo :: rest) st = (st, Raise AttributeError)) /\
  (forall kv d, export_all fuel (JDict (kv :: d)) st = (st, Raise AttributeError)) /\
  (forall c s, export_all fuel (JStr (String c s)) st = (st, Raise AttributeError)) /\
  (forall conversations,
      is_json_dict conversations = false ->
      is_json_string conversations = false ->
      (forall l, conversations <> JList l) ->
      export_all fuel conversations st = (st, Raise TypeError)).
Proof.
  split; [| split; [| split]].
  - intros convo rest H; cbn [export_each]; unfold export_one, prepare.
    destruct convo; try reflexivity; discriminate.
  - intros kv d; reflexivity.
  - intros c s; reflexivity.
  - intros conversations Hd Hs Hl.
    destruct conversations; try reflexivity; try discriminate.
    exfalso; eapply Hl; reflexivity.
Qed.

Lemma archive_must_be_list_of_objects_witness :
  export_each (H := sample_lib) 3 [JStr "not a record"; conversation "Fine" scenario_A]
    (fresh (H := sample_lib) [])
  = (fresh (H := sample_lib) [], Raise AttributeError).
Proof.
  apply (proj1 (archive_must_be_list_of_objects sample_lib 3 (fresh (H := sample_lib) []))).
  reflexivity.
Defined.

(** ** [main] before and around the loop *)

(** X16: without the input file [main] returns after three lines and leaves
    the disk alone; the output directory is made before the input is read,
    so an input that cannot be decoded or read still leaves the new
    directory behind, with nothing exported; an exception of [os.makedirs]
    is not caught. *)
Theorem main_stops_before_processing (L : PyLib) (O : PyOS L) (fuel : nat) (st : state) :
  (path_exists (disk st) INPUT_FILE = false ->
   exists st', main fuel st = (st', Ret tt) /\
               disk st' = disk st /\ count st' = count st /\
               List.length (console st') = List.length (console st) + 3) /\
  (forall d e,
      path_exists (disk st) INPUT_FILE = true ->
      path_exists (disk st) OUTPUT_DIR = false ->
      makedirs (disk st) OUTPUT_DIR = (d, Some e) ->
      exists st', main fuel st = (st', Raise e) /\ disk st' = d) /\
  (forall d,
      path_exists (disk st) INPUT_FILE = true ->
      path_exists (disk st) OUTPUT_DIR = false ->
      makedirs (disk st) OUTPUT_DIR = (d, None) ->
      (forall conversations, load_json d INPUT_FILE <> Loaded conversations) ->
      exists st', main fuel st = (st', Ret tt) /\
                  disk st' = d /\ count st' = count st).
Proof.
  split; [| split].
  - intro E; unfold main; cbn [print disk]; rewrite E; cbn [negb].
    eexists; split; [reflexivity |].
    cbn [print disk count console]; repeat split.
    rewrite !length_app; cbn [List.length]; lia.
  - intros d e Ei Eo Em; unfold main, ensure_output_dir; cbn [print disk].
    rewrite Ei, Eo; cbn [negb]; rewrite Em.
    eexists; split; reflexivity.
  - intros d Ei Eo Em Hl; unfold main, ensure_output_dir; cbn [print disk].
    rewrite Ei, Eo; cbn [negb]; rewrite Em.
    cbn [print with_disk disk].
    destruct (load_json d INPUT_FILE) as [conversations | | text] eqn:El.
    + exfalso; apply (Hl conversations); reflexivity.
    + eexists; split; [reflexivity | split; reflexivity].
    + eexists; split; [reflexivity | split; reflexivity].
Qed.

Lemma main_stops_before_processing_witness :
  exists st',
    main (O := sample_os DecodeError) 3 (fresh (H := sample_lib) []) = (st', Ret tt) /\
    disk st' = [("chatgpt_exports", EmptyString)] /\
    count st' = 0.
Proof.
  apply (proj2 (proj2 (main_stops_before_processing sample_lib (sample_os DecodeError)
                         3 (fresh (H := sample_lib) [])))
           [("chatgpt_exports", EmptyString)]).
  - reflexivity.
  - reflexivity.
  - reflexivity.
  - intros conversations; discriminate.
Defined.

(** X17: when the input decodes to a list and every record gets through,
    [main] prints its greeting, the line about the output directory when it
    had to make it, one line per record and the summary; the counter starts
    from zero, so the number in the summary is the number of
    [Successfully saved] lines of this run. *)
Theorem main_reports_every_record (L : PyLib) (O : PyOS L) (fuel : nat)
    (convos : list json) (st st' : state) :
  path_exists (disk st) INPUT_FILE = true ->
  load_json
    (if path_exists (disk st) OUTPUT_DIR then disk st
     else fst (makedirs (disk st) OUTPUT_DIR))
    INPUT_FILE = Loaded (JList convos) ->
  main fuel st = (st', Ret tt) ->
  exists new,
    List.length new = List.length convos /\
    count st' = List.length (saved_lines new) /\
    console st'
    = List.app (console st)
        ("Starting ChatGPT conversation parser..."
         :: List.app
              (if path_exists (disk st) OUTPUT_DIR then []
               else ["Created output directory: 'chatgpt_exports'"])
              (List.app new
                 [nl ++ "Processing complete. Successfully exported "
                  ++ string_of_nat (List.length (saved_lines new))
                  ++ " conversations."])).
Proof.
  intros Ei El H.
  unfold main, ensure_output_dir in H; cbn [print disk] in H.
  rewrite Ei in H; cbn [negb] in H.
  unfold print in H; cbn [disk console count] in H.
  destruct (path_exists (disk st) OUTPUT_DIR) eqn:Eo; cbn [negb] in H;
    try rewrite Eo in El.
  - cbn [disk console count] in H; rewrite El in H.
    destruct (export_all_reports L fuel convos _ st' H) as (new & Hl & Hc & Hcon).
    cbn [count console] in Hc, Hcon.
    exists new; split; [exact Hl |]; split; [exact Hc |].
    rewrite Hcon, <- app_assoc; reflexivity.
  - destruct (makedirs (disk st) OUTPUT_DIR) as [d [e |]]; [discriminate |].
    unfold with_disk in H; cbn [fst disk console count] in H, El.
    rewrite El in H.
    destruct (export_all_reports L fuel convos _ st' H) as (new & Hl & Hc & Hcon).
    cbn [count console] in Hc, Hcon.
    exists new; split; [exact Hl |]; split; [exact Hc |].
    rewrite Hcon, <- !app_assoc; reflexivity.
Qed.

Lemma main_reports_every_record_witness :
  exists new,
    List.length new = 2 /\
    1 = List.length (saved_lines new) /\
    ["Starting ChatGPT conversation parser...";
     "Created output directory: 'chatgpt_exports'";
     "Skipping conversation (no messages found): Empty";
     "Successfully saved: chatgpt_exports/Fine.md";
     nl ++ "Processing complete. Successfully exported 1 conversations."]
    = List.app []
        ("Starting ChatGPT conversation parser..."
         :: List.app ["Created output directory: 'chatgpt_exports'"]
              (List.app new
                 [nl ++ "Processing complete. Successfully exported "
                  ++ string_of_nat (List.length (saved_lines new))
                  ++ " conversations."])).
Proof.
  apply (main_reports_every_record sample_lib
           (sample_os (Loaded (JList [conversation "Empty" [];
                                      conversation "Fine" scenario_A])))
           3 [conversation "Empty" []; conversation "Fine" scenario_A]
           (mk_state (H := sample_lib) [] [] 7)
           (mk_state (H := sample_lib)
              [("chatgpt_exports/Fine.md",
                "# Fine" ++ nl ++ nl ++ "## User" ++ nl ++ nl ++ "Hello" ++ nl ++ nl
                ++ "---" ++ nl ++ nl);
               ("chatgpt_exports", EmptyString)]
              ["Starting ChatGPT conversation parser...";
               "Created output directory: 'chatgpt_exports'";
               "Skipping conversation (no messages found): Empty";
               "Successfully saved: chatgpt_exports/Fine.md";
               nl ++ "Processing complete. Successfully exported 1 conversations."]
              1));
    reflexivity.
Defined.
